(** * iphone-price-monitor: the ingestion-and-merge pipeline

    A shallow embedding of [scraper/pipeline/run.py] and
    [scraper/http_client.py], together with the collaborators they import
    ([scraper.models], [scraper.pipeline.dedupe], [scraper.storage.*]),
    and the properties of the append-merge-persist cycle. *)

From Stdlib Require Import Ascii String QArith Qcanon.
From stdpp Require Import base numbers list strings gmap.

Set Default Proof Using "Type".
#[local] Set Warnings "-clear-no-such-hyp".
Local Open Scope N_scope.

(** ** Timestamps ([datetime], timezone-aware, always UTC) *)

Module Iso.

(** Modelled from the spec: [scraped_at] of [scraper.models.ProductSnapshot]
    is a timezone-aware UTC timestamp; the fields are those of Python's
    [datetime] with [tzinfo = timezone.utc]. *)
Record datetime := mk_datetime {
  year : N;
  month : N;
  day : N;
  hour : N;
  minute : N;
  second : N;
  microsecond : N
}.

#[export] Instance datetime_eq_dec : EqDecision datetime.
Proof. solve_decision. Defined.

Definition datetime_to_tuple (t : datetime) : N * N * N * N * N * N * N :=
  (year t, month t, day t, hour t, minute t, second t, microsecond t).

Definition datetime_of_tuple (p : N * N * N * N * N * N * N) : datetime :=
  let '(y, mo, d, h, mi, s, us) := p in mk_datetime y mo d h mi s us.

#[export] Instance datetime_countable : Countable datetime.
Proof.
  apply (inj_countable' datetime_to_tuple datetime_of_tuple).
  by intros [].
Defined.

Definition is_leap (y : N) : bool :=
  (y mod 4 =? 0) && (negb (y mod 100 =? 0) || (y mod 400 =? 0)).

Definition days_in_month (y m : N) : N :=
  match m with
  | 2 => if is_leap y then 29 else 28
  | 4 | 6 | 9 | 11 => 30
  | _ => 31
  end.

(** The range checks of the [datetime] constructor. *)
Definition valid_datetime (t : datetime) : bool :=
  (1 <=? year t) && (year t <=? 9999) &&
  (1 <=? month t) && (month t <=? 12) &&
  (1 <=? day t) && (day t <=? days_in_month (year t) (month t)) &&
  (hour t <? 24) && (minute t <? 60) && (second t <? 60) &&
  (microsecond t <? 1000000).

(** *** Writing: fixed-width decimal fields *)

Definition digit_of (d : N) : ascii := ascii_of_N (48 + d).

Definition pow10 (w : nat) : N := 10 ^ N.of_nat w.

Fixpoint pad_digits (w : nat) (n : N) : list ascii :=
  match w with
  | O => []
  | S w' => digit_of (n / pow10 w') :: pad_digits w' (n mod pow10 w')
  end.

(** Modelled from the spec: the ISO-8601 text of a timestamp in the JSON
    store, [YYYY-MM-DDTHH:MM:SS[.ffffff]Z]; the fraction is omitted when the
    microseconds are zero. *)
Definition isoformat_chars (t : datetime) : list ascii :=
  pad_digits 4 (year t) ++ "-"%char ::
  pad_digits 2 (month t) ++ "-"%char ::
  pad_digits 2 (day t) ++ "T"%char ::
  pad_digits 2 (hour t) ++ ":"%char ::
  pad_digits 2 (minute t) ++ ":"%char ::
  pad_digits 2 (second t) ++
  (if microsecond t =? 0 then [] else "."%char :: pad_digits 6 (microsecond t)) ++
  ["Z"%char].

Definition isoformat (t : datetime) : string :=
  string_of_list_ascii (isoformat_chars t).

(** *** Reading *)

Definition digit_val (c : ascii) : option N :=
  let n := N_of_ascii c in
  if (48 <=? n) && (n <=? 57) then Some (n - 48) else None.

Fixpoint read_digits (w : nat) (acc : N) (s : list ascii) : option (N * list ascii) :=
  match w with
  | O => Some (acc, s)
  | S w' =>
      match s with
      | [] => None
      | c :: s' =>
          match digit_val c with
          | Some d => read_digits w' (10 * acc + d) s'
          | None => None
          end
      end
  end.

Definition expect (c : ascii) (s : list ascii) : option (list ascii) :=
  match s with
  | c' :: s' => if Ascii.eqb c c' then Some s' else None
  | [] => None
  end.

(** The optional fraction of a second: a dot and six digits. *)
Definition read_fraction (s : list ascii) : option (N * list ascii) :=
  match s with
  | c :: s' => if Ascii.eqb c "."%char then read_digits 6 0 s' else Some (0, s)
  | [] => Some (0, s)
  end.

(** Only UTC is accepted: [Z] or [+00:00], and nothing after it. *)
Definition utc_suffix (s : list ascii) : bool :=
  bool_decide (s = ["Z"%char]) ||
  bool_decide (s = list_ascii_of_string "+00:00").

(** Modelled from the spec: reading a timestamp back is an explicit step
    that fails on anything but a valid UTC date and time. *)
Definition fromisoformat_chars (s : list ascii) : option datetime :=
  '(y, s) ← read_digits 4 0 s;
  s ← expect "-"%char s;
  '(mo, s) ← read_digits 2 0 s;
  s ← expect "-"%char s;
  '(d, s) ← read_digits 2 0 s;
  s ← expect "T"%char s;
  '(h, s) ← read_digits 2 0 s;
  s ← expect ":"%char s;
  '(mi, s) ← read_digits 2 0 s;
  s ← expect ":"%char s;
  '(sec, s) ← read_digits 2 0 s;
  '(us, s) ← read_fraction s;
  let t := mk_datetime y mo d h mi sec us in
  if utc_suffix s && valid_datetime t then Some t else None.

Definition fromisoformat (s : string) : option datetime :=
  fromisoformat_chars (list_ascii_of_string s).

End Iso.

(** ** Errors and results *)

(** The error taxonomy; each class carries what the failure was about
    (a field name, a URL, a path), so that two errors can be told apart. *)
Inductive exn :=
| ValidationError (field : string)
| FetchError (url : string)
| ParseError (url : string)
| CorruptStateError (path : string)
| IOError (path : string).

(** A call either returns a value or raises. *)
Inductive result (A : Type) :=
| Ok (a : A)
| Raise (e : exn).
Arguments Ok {A} a.
Arguments Raise {A} e.

(** ** JSON values and the snapshot model *)

Local Unset Elimination Schemes.
Inductive json :=
| JNull
| JBool (b : bool)
| JNum (q : Qc)
| JStr (s : string)
| JArr (items : list json)
| JObj (members : gmap string json).
Local Set Elimination Schemes.

Import Iso.

(** Modelled from the spec: [scraper.models.ProductSnapshot] is not among
    the sources; the fields are those of the data model (one observation of
    one product at a point in time, two optional descriptive attributes
    carried through unchanged). *)
Record ProductSnapshot := mk_snapshot {
  product_key : string;
  title : string;
  price : Qc;
  currency : string;
  url : string;
  scraped_at : datetime;
  availability : option string;
  condition : option string
}.

(** What the model's constructor guarantees of every record it builds. *)
Definition valid_snapshot (p : ProductSnapshot) : bool :=
  negb (String.eqb (product_key p) "") &&
  bool_decide (0 ≤ price p)%Qc &&
  valid_datetime (scraped_at p).

Definition dump_optional (o : option string) : json :=
  match o with
  | Some s => JStr s
  | None => JNull
  end.

(** Modelled from the spec: [model_dump(mode="json")], the field-for-field
    mapping written to the JSON store. *)
Definition model_dump (p : ProductSnapshot) : gmap string json :=
  <["product_key" := JStr (product_key p)]>
  (<["title" := JStr (title p)]>
  (<["price" := JNum (price p)]>
  (<["currency" := JStr (currency p)]>
  (<["url" := JStr (url p)]>
  (<["scraped_at" := JStr (isoformat (scraped_at p))]>
  (<["availability" := dump_optional (availability p)]>
  (<["condition" := dump_optional (condition p)]> ∅))))))).

Definition required_key (d : gmap string json) : result string :=
  match d !! "product_key" with
  | Some (JStr s) => if String.eqb s "" then Raise (ValidationError "product_key") else Ok s
  | _ => Raise (ValidationError "product_key")
  end.

Definition text_field (f : string) (d : gmap string json) : result string :=
  match d !! f with
  | None => Ok ""%string
  | Some (JStr s) => Ok s
  | Some _ => Raise (ValidationError f)
  end.

Definition optional_field (f : string) (d : gmap string json) : result (option string) :=
  match d !! f with
  | None | Some JNull => Ok None
  | Some (JStr s) => Ok (Some s)
  | Some _ => Raise (ValidationError f)
  end.

Definition price_field (d : gmap string json) : result Qc :=
  match d !! "price" with
  | None => Ok 0%Qc
  | Some (JNum q) => if bool_decide (0 ≤ q)%Qc then Ok q else Raise (ValidationError "price")
  | Some _ => Raise (ValidationError "price")
  end.

Definition time_field (now : datetime) (d : gmap string json) : result datetime :=
  match d !! "scraped_at" with
  | None => Ok now
  | Some (JStr s) =>
      match fromisoformat s with
      | Some t => Ok t
      | None => Raise (ValidationError "scraped_at")
      end
  | Some _ => Raise (ValidationError "scraped_at")
  end.

#[export] Instance result_ret : MRet result := λ A a, Ok a.

#[export] Instance result_bind : MBind result := λ A B k r,
  match r with
  | Ok a => k a
  | Raise e => Raise e
  end.

(** Modelled from the spec: [ProductSnapshot.model_validate], the strict
    constructor from a deserialized mapping. [product_key] is required and
    non-empty, the price a non-negative number, the timestamp an ISO-8601
    string (the current time when omitted); the other fields default to
    empty or absent. *)
Definition model_validate (now : datetime) (d : gmap string json) : result ProductSnapshot :=
  k ← required_key d;
  ti ← text_field "title" d;
  p ← price_field d;
  c ← text_field "currency" d;
  u ← text_field "url" d;
  t ← time_field now d;
  a ← optional_field "availability" d;
  co ← optional_field "condition" d;
  mret (mk_snapshot k ti p c u t a co).

(** [run.py], lines 13-15. *)
Definition _dict_to_snapshot (now : datetime) (d : gmap string json) : result ProductSnapshot :=
  model_validate now d.

(** A list comprehension over a call that may raise: the first failure
    ends it ([run.py], line 27). *)
Fixpoint map_result {A B} (f : A → result B) (l : list A) : result (list B) :=
  match l with
  | [] => Ok []
  | x :: l' => y ← f x; ys ← map_result f l'; mret (y :: ys)
  end.

(** ** The deduplicator *)

(** Two snapshots are the same observation when they agree on product and
    timestamp. (An exact match on product, price and timestamp is a special
    case of it.) *)
Definition dedup_key (r : ProductSnapshot) : string * datetime :=
  (product_key r, scraped_at r).

(** Modelled from the spec: [scraper.pipeline.dedupe.dedupe_snapshots] is not
    among the sources. One pass over the rows with the set of keys seen so
    far; a row whose key was seen is dropped, the first one is kept in
    place. *)
Fixpoint dedupe_loop (seen : gset (string * datetime)) (rows : list ProductSnapshot)
  : list ProductSnapshot :=
  match rows with
  | [] => []
  | r :: rows' =>
      if decide (dedup_key r ∈ seen) then dedupe_loop seen rows'
      else r :: dedupe_loop ({[dedup_key r]} ∪ seen) rows'
  end.

Definition dedupe_snapshots (rows : list ProductSnapshot) : list ProductSnapshot :=
  dedupe_loop ∅ rows.

(** The deduplicator in the words of the specification: the element at
    position [i] survives exactly when no earlier element has its key. *)
Fixpoint first_occurrences (earlier rows : list ProductSnapshot) : list ProductSnapshot :=
  match rows with
  | [] => []
  | r :: rows' =>
      if bool_decide (dedup_key r ∈ dedup_key <$> earlier)
      then first_occurrences (earlier ++ [r]) rows'
      else r :: first_occurrences (earlier ++ [r]) rows'
  end.

(** Position of the first row carrying key [k]. *)
Fixpoint first_index (k : string * datetime) (rows : list ProductSnapshot) : option nat :=
  match rows with
  | [] => None
  | r :: rows' => if decide (dedup_key r = k) then Some O else S <$> first_index k rows'
  end.

(** ** Files and the history store *)

Inductive cell :=
| CText (s : string)
| CNum (q : Qc).

(** What a file holds: a text that parses as a JSON value, a table of
    comma-separated values, or any other text. *)
Inductive file_content :=
| JsonText (doc : json)
| CsvText (table : list (list cell))
| RawText (raw : string).

(** The calls a run makes to its collaborators, in program order. *)
Inductive event :=
| EvFetch (base_url : string)
| EvReadJson (path : string)
| EvWriteJson (path : string) (rows : list ProductSnapshot)
| EvWriteCsv (path : string) (rows : list ProductSnapshot).

(** The environment of a run: the files by path, the paths that refuse to
    be written, the clock, and the calls made so far. *)
Record world := mk_world {
  files : gmap string file_content;
  write_denied : gset string;
  clock : datetime;
  trace : list event
}.

(** A Python call: it may change the world, and it returns or raises; what
    it changed before raising stays changed. *)
Definition IO (A : Type) : Type := world → result A * world.

#[export] Instance io_ret : MRet IO := λ A a w, (Ok a, w).

#[export] Instance io_bind : MBind IO := λ A B k m w,
  match m w with
  | (Ok a, w') => k a w'
  | (Raise e, w') => (Raise e, w')
  end.

Definition io_lift {A} (r : result A) : IO A := λ w, (r, w).

Definition io_now : IO datetime := λ w, (Ok (clock w), w).

Definition log (e : event) (w : world) : world :=
  mk_world (files w) (write_denied w) (clock w) (trace w ++ [e]).

Definition put_file (path : string) (c : file_content) (w : world) : world :=
  mk_world (<[path := c]> (files w)) (write_denied w) (clock w) (trace w).

Definition as_object (j : json) : option (gmap string json) :=
  match j with
  | JObj d => Some d
  | _ => None
  end.

(** The expected schema of the JSON store: an array of objects. *)
Definition parse_records (c : file_content) : option (list (gmap string json)) :=
  match c with
  | JsonText (JArr items) => mapM as_object items
  | _ => None
  end.

(** Modelled from the spec: [scraper.storage.json_store.read_json_if_exists]
    is not among the sources. No file at the path gives the empty list; a
    file that does not hold an array of objects raises [CorruptStateError]. *)
Definition read_json_if_exists (path : string) : IO (list (gmap string json)) :=
  λ w, let w := log (EvReadJson path) w in
       match files w !! path with
       | None => (Ok [], w)
       | Some c =>
           match parse_records c with
           | Some ds => (Ok ds, w)
           | None => (Raise (CorruptStateError path), w)
           end
       end.

Definition json_document (rows : list ProductSnapshot) : file_content :=
  JsonText (JArr ((λ r, JObj (model_dump r)) <$> rows)).

(** Modelled from the spec: [scraper.storage.json_store.write_json] is not
    among the sources. It overwrites the target with the whole serialized
    collection, order kept, or raises and leaves the target as it was. *)
Definition write_json (path : string) (rows : list ProductSnapshot) : IO unit :=
  λ w, let w := log (EvWriteJson path rows) w in
       if decide (path ∈ write_denied w) then (Raise (IOError path), w)
       else (Ok (), put_file path (json_document rows) w).

Definition csv_header : list cell :=
  CText <$> ["product_key"; "title"; "price"; "currency"; "url"; "scraped_at";
             "availability"; "condition"]%string.

Definition csv_row (r : ProductSnapshot) : list cell :=
  [CText (product_key r); CText (title r); CNum (price r); CText (currency r);
   CText (url r); CText (isoformat (scraped_at r));
   CText (default ""%string (availability r)); CText (default ""%string (condition r))].

Definition csv_document (rows : list ProductSnapshot) : file_content :=
  CsvText (csv_header :: (csv_row <$> rows)).

(** Modelled from the spec: [scraper.storage.csv_store.write_csv] is not
    among the sources. A header row and one row per snapshot. *)
Definition write_csv (path : string) (rows : list ProductSnapshot) : IO unit :=
  λ w, let w := log (EvWriteCsv path rows) w in
       if decide (path ∈ write_denied w) then (Raise (IOError path), w)
       else (Ok (), put_file path (csv_document rows) w).

(** ** The pipeline ([scraper/pipeline/run.py]) *)

Section Pipeline.

(** [GitHubPagesCatalogSource(base_url).fetch()] is not among the sources:
    what the catalog source answers for a base URL at a given time is a
    parameter of the run. It reads the network, not the files. *)
Variable source_fetch : string → datetime → result (list ProductSnapshot).

Definition fetch (base_url : string) : IO (list ProductSnapshot) :=
  λ w, (source_fetch base_url (clock w), log (EvFetch base_url) w).

(** [run.py], lines 18-35. Paths are their strings; [now] is the clock
    [model_validate] falls back on for a record without a timestamp. *)
Definition run_pipeline (base_url out_csv out_json : string) : IO (list ProductSnapshot) :=
  new_rows ← fetch base_url;
  existing_dicts ← read_json_if_exists out_json;
  now ← io_now;
  existing_rows ← io_lift (map_result (_dict_to_snapshot now) existing_dicts);
  let combined := existing_rows ++ new_rows in
  let combined := dedupe_snapshots combined in
  _ ← write_json out_json combined;
  _ ← write_csv out_csv combined;
  mret combined.

(** Loading the history as the pipeline does it (lines 26-27). *)
Definition load_history (path : string) : IO (list ProductSnapshot) :=
  existing_dicts ← read_json_if_exists path;
  now ← io_now;
  io_lift (map_result (_dict_to_snapshot now) existing_dicts).

End Pipeline.

(** ** The HTTP client ([scraper/http_client.py]) *)

Module Http.

Record response := mk_response {
  status_code : N;
  text : string
}.

(** What [httpx] raises: the request timed out, the transport failed
    otherwise, or [raise_for_status] rejected the response. *)
Inductive http_error :=
| TimeoutException
| TransportError
| HTTPStatusError (r : response).

Record client := mk_client {
  headers : list (string * string);
  timeout : Qc;
  follow_redirects : bool
}.

(** [Response.is_success]: the 2xx codes. *)
Definition is_success (r : response) : bool :=
  (200 <=? status_code r) && (status_code r <=? 299).

Definition raise_for_status (r : response) : http_error + unit :=
  if is_success r then inr () else inl (HTTPStatusError r).

(** The [headers] dictionary of [get_html] (lines 7-10). *)
Definition request_headers : list (string * string) :=
  [("User-Agent", "iphone-price-monitor/1.0 (+https://github.com/your-handle)");
   ("Accept", "text/html,application/xhtml+xml")]%string.

(** The default of [timeout_s]. *)
Definition default_timeout_s : Qc := Q2Qc 20.

Section Client.

(** The transport: what [client.get(url)] yields for a configured client,
    a response of any status or a raised error. *)
Variable client_get : client → string → http_error + response.

(** [http_client.py], lines 6-14. The [with] block closes the client on
    both exits; a raised error passes through it. *)
Definition get_html (url : string) (timeout_s : Qc) : http_error + string :=
  let headers := request_headers in
  let client := mk_client headers timeout_s true in
  match client_get client url with
  | inl e => inl e
  | inr r =>
      match raise_for_status r with
      | inl e => inl e
      | inr _ => inr (text r)
      end
  end.

End Client.

End Http.

(** ** Sample data *)

Module Samples.

Definition t1 : datetime := mk_datetime 2024 1 1 0 0 0 0.
Definition t2 : datetime := mk_datetime 2024 1 2 10 30 5 123.

Definition iphone_t1 : ProductSnapshot :=
  mk_snapshot "iphone-15-128" "iPhone 15" (Q2Qc 799) "USD"
    "https://andres-torrez.github.io/iphone-catalog/" t1 None None.

(** The same product and timestamp, another price. *)
Definition iphone_t1_repriced : ProductSnapshot :=
  mk_snapshot "iphone-15-128" "iPhone 15" (Q2Qc 779) "USD"
    "https://andres-torrez.github.io/iphone-catalog/" t1 None None.

(** The same product and timestamp, another casing of the title. *)
Definition iphone_t1_upper : ProductSnapshot :=
  mk_snapshot "iphone-15-128" "IPHONE 15" (Q2Qc 799) "USD"
    "https://andres-torrez.github.io/iphone-catalog/" t1 None None.

Definition iphone_t2 : ProductSnapshot :=
  mk_snapshot "iphone-15-128" "iPhone 15" (Q2Qc 749) "USD"
    "https://andres-torrez.github.io/iphone-catalog/" t2 (Some "in stock"%string) None.

Definition catalog_url : string := "https://andres-torrez.github.io/iphone-catalog/".

(** A catalog that lists the product at its second price. *)
Definition catalog_t2 (base_url : string) (now : datetime) : result (list ProductSnapshot) :=
  Ok [iphone_t2].

Definition catalog_down (base_url : string) (now : datetime) : result (list ProductSnapshot) :=
  Raise (FetchError base_url).

Definition fresh_world : world := mk_world ∅ ∅ t2 [].

(** One record in the store. *)
Definition stocked_world : world :=
  mk_world {["history.json"%string := json_document [iphone_t1]]} ∅ t2 [].

(** One record in the store, and a CSV path that cannot be written. *)
Definition csv_locked_world : world :=
  mk_world {["history.json"%string := json_document [iphone_t1]]}
           {["prices.csv"%string]} t2 [].

(** A store whose only record has no [product_key]. *)
Definition keyless_world : world :=
  mk_world {["history.json"%string :=
               JsonText (JArr [JObj {["title"%string := JStr "iPhone 15"]}])]}
           ∅ t2 [].

(** A store holding something that is not an array of objects. *)
Definition garbled_world : world :=
  mk_world {["history.json"%string := RawText "<html>"]} ∅ t2 [].

(** Three servers: one answers, one has lost the page, one takes thirty
    seconds to answer. *)
Definition server_ok (c : Http.client) (url : string) : Http.http_error + Http.response :=
  inr (Http.mk_response 200 "<html>catalog</html>").

Definition server_missing (c : Http.client) (url : string) : Http.http_error + Http.response :=
  inr (Http.mk_response 404 "not found").

Definition server_slow (c : Http.client) (url : string) : Http.http_error + Http.response :=
  if bool_decide (Http.timeout c < Q2Qc 30)%Qc then inl Http.TimeoutException
  else inr (Http.mk_response 200 "<html>catalog</html>").

End Samples.


(** ** Time passing between two runs *)

(** The world as the next run finds it: the same files, a later clock. *)
Definition tick (now : datetime) (w : world) : world :=
  mk_world (files w) (write_denied w) now (trace w).

(** ** The command line ([scraper/cli.py]) *)

Module Cli.

(** What a command prints: a line of text, or the text of a JSON value
    ([json.dumps]). *)
Inductive output :=
| OutLine (line : string)
| OutJson (doc : json).

Inductive exit_arg :=
| ExitCode (n : N)
| ExitMessage (msg : string).

(** What leaves a command: an error of the scraper passing through, a
    missing attribute of the parsed arguments, or [SystemExit]. *)
Inductive cli_exn :=
| Uncaught (e : exn)
| AttributeError (name : string)
| SystemExit (arg : exit_arg).

Inductive outcome (A : Type) :=
| Done (a : A)
| Failed (e : cli_exn).
Arguments Done {A} a.
Arguments Failed {A} e.

(** The process: the world of the scraper, [sys.argv] after the program
    name, and what was printed so far. *)
Record console := mk_console {
  env : world;
  argv : list string;
  stdout : list output
}.

Definition CLI (A : Type) : Type := console → outcome A * console.

#[export] Instance cli_ret : MRet CLI := λ A a c, (Done a, c).

#[export] Instance cli_bind : MBind CLI := λ A B k m c,
  match m c with
  | (Done a, c') => k a c'
  | (Failed e, c') => (Failed e, c')
  end.

Definition cli_raise {A} (e : cli_exn) : CLI A := λ c, (Failed e, c).

Definition print (o : output) : CLI unit :=
  λ c, (Done (), mk_console (env c) (argv c) (stdout c ++ [o])).

(** A call into the scraper; what it raises is not caught. *)
Definition call {A} (m : IO A) : CLI A :=
  λ c, match m (env c) with
       | (Ok a, w) => (Done a, mk_console w (argv c) (stdout c))
       | (Raise e, w) => (Failed (Uncaught e), mk_console w (argv c) (stdout c))
       end.

(** [datetime.isoformat()] of an aware UTC time:
    [YYYY-MM-DDTHH:MM:SS[.ffffff]+00:00], the fraction left out when the
    microseconds are zero. *)
Definition aware_isoformat_chars (t : datetime) : list ascii :=
  pad_digits 4 (year t) ++ "-"%char ::
  pad_digits 2 (month t) ++ "-"%char ::
  pad_digits 2 (day t) ++ "T"%char ::
  pad_digits 2 (hour t) ++ ":"%char ::
  pad_digits 2 (minute t) ++ ":"%char ::
  pad_digits 2 (second t) ++
  (if microsecond t =? 0 then [] else "."%char :: pad_digits 6 (microsecond t)) ++
  list_ascii_of_string "+00:00".

Definition aware_isoformat (t : datetime) : string :=
  string_of_list_ascii (aware_isoformat_chars t).

(** [datetime.now(timezone.utc)]. *)
Definition utc_now : CLI datetime := λ c, (Done (clock (env c)), c).

(** [cli.py], lines 10-12. *)
Definition cmd_healthcheck : CLI unit :=
  t ← utc_now;
  let now := aware_isoformat t in
  print (OutLine ("[ok] scraper CLI is working | utc=" +:+ now)).

(** Attribute access on the parsed arguments. *)
Definition getattr (args : gmap string string) (name : string) : CLI string :=
  match args !! name with
  | Some v => mret v
  | None => cli_raise (AttributeError name)
  end.

Section Commands.

Variable source_fetch : string → datetime → result (list ProductSnapshot).

(** [cli.py], lines 15-19. *)
Definition cmd_scrape (base_url : string) : CLI unit :=
  snapshots ← call (fetch source_fetch base_url);
  let payload := model_dump <$> snapshots in
  print (OutJson (JArr (JObj <$> payload))).

(** [parser.parse_args()] of the parser built on lines 23-33: what it
    prints to standard output (the help text), and the attributes it found
    in the arguments or the exit it took. It reads the arguments only. *)
Variable parse_args : list string → list output * outcome (gmap string string).

Definition parser_parse_args : CLI (gmap string string) :=
  λ c, let '(printed, r) := parse_args (argv c) in
       (r, mk_console (env c) (argv c) (stdout c ++ printed)).

(** What the parser of lines 23-33 can hand back: the command is one of
    the two registered subcommands, which are required, and [scrape] comes
    with a [base_url], given or defaulted. *)
Definition registered_commands_only : Prop :=
  ∀ args printed ns, parse_args args = (printed, Done ns) →
    ns !! "command"%string = Some "healthcheck"%string ∨
    (ns !! "command"%string = Some "scrape"%string ∧ is_Some (ns !! "base_url"%string)).

(** [cli.py], lines 22-42. *)
Definition main : CLI unit :=
  args ← parser_parse_args;
  command ← getattr args "command";
  if String.eqb command "healthcheck" then cmd_healthcheck
  else if String.eqb command "scrape" then
    base_url ← getattr args "base_url";
    cmd_scrape base_url
  else cli_raise (SystemExit (ExitMessage "Unknown command")).

End Commands.

End Cli.

(** ** More sample data *)

Module MoreSamples.

Import Samples.

Definition t3 : datetime := mk_datetime 2024 1 3 8 0 0 0.

Definition iphone_t3 : ProductSnapshot :=
  mk_snapshot "iphone-15-128" "iPhone 15" (Q2Qc 729) "USD"
    "https://andres-torrez.github.io/iphone-catalog/" t3 None None.

(** A catalog that lists the product at its first price. *)
Definition catalog_t1 (base_url : string) (now : datetime) : result (list ProductSnapshot) :=
  Ok [iphone_t1].

(** A catalog that lists the product at its third price. *)
Definition catalog_t3 (base_url : string) (now : datetime) : result (list ProductSnapshot) :=
  Ok [iphone_t3].

(** A catalog that lists again what the store already has, at another
    price. *)
Definition catalog_t1_repriced (base_url : string) (now : datetime)
  : result (list ProductSnapshot) :=
  Ok [iphone_t1_repriced; iphone_t2].

(** One record in the store, and a JSON path that cannot be written. *)
Definition json_locked_world : world :=
  mk_world {["history.json"%string := json_document [iphone_t1]]}
           {["history.json"%string]} t2 [].

Definition fresh_console (args : list string) : Cli.console :=
  Cli.mk_console fresh_world args [].

Definition stocked_console (args : list string) : Cli.console :=
  Cli.mk_console stocked_world args [].

(** An argument parser that knows the two commands and the help option,
    and nothing else of their options: it prints a usage line and exits
    with 0 for [--help], and exits with 2 for anything it does not know. *)
Definition parse_two_commands (args : list string)
  : list Cli.output * Cli.outcome (gmap string string) :=
  if bool_decide (args = ["healthcheck"%string]) then
    ([], Cli.Done {["command"%string := "healthcheck"%string]})
  else if bool_decide (args = ["scrape"%string]) then
    ([], Cli.Done (<["command"%string := "scrape"%string]>
                   {["base_url"%string := catalog_url]}))
  else if bool_decide (args = ["--help"%string]) then
    ([Cli.OutLine "usage: scraper [-h] {healthcheck,scrape} ..."],
     Cli.Failed (Cli.SystemExit (Cli.ExitCode 0)))
  else ([], Cli.Failed (Cli.SystemExit (Cli.ExitCode 2))).

End MoreSamples.

(** * Properties *)

(** ** ISO-8601 timestamps are read back as written *)

Lemma pow10_pos w : 0 < pow10 w.
Proof.
  unfold pow10. pose proof (N.pow_nonzero 10 (N.of_nat w)). lia.
Qed.

Lemma pow10_S w : pow10 (S w) = 10 * pow10 w.
Proof. unfold pow10. rewrite Nat2N.inj_succ, N.pow_succ_r; lia. Qed.

Lemma digit_val_digit_of d : d < 10 → digit_val (digit_of d) = Some d.
Proof.
  intros Hd. unfold digit_val, digit_of.
  rewrite N_ascii_embedding by lia.
  replace (48 + d - 48) with d by lia.
  destruct (N.leb_spec 48 (48 + d)), (N.leb_spec (48 + d) 57);
    simpl; (done || lia).
Qed.

Lemma read_digits_pad w : ∀ n acc rest,
  n < pow10 w →
  read_digits w acc (pad_digits w n ++ rest) = Some (acc * pow10 w + n, rest).
Proof.
  induction w as [|w IH]; intros n acc rest Hn.
  - simpl. f_equal. f_equal. change (pow10 0) with 1 in *. lia.
  - cbn [pad_digits read_digits app].
    pose proof (pow10_pos w) as Hpos. rewrite pow10_S in *.
    assert (Hq : n / pow10 w < 10).
    { apply N.Div0.div_lt_upper_bound. lia. }
    rewrite digit_val_digit_of by done.
    rewrite IH by (apply N.mod_lt; lia).
    f_equal. f_equal.
    pose proof (N.div_mod' n (pow10 w)). nia.
Qed.

Lemma expect_cons c s : expect c (c :: s) = Some s.
Proof. simpl. by rewrite Ascii.eqb_refl. Qed.

Ltac read_field w :=
  rewrite (read_digits_pad w) by (vm_compute pow10; lia);
  cbn [mbind option_bind]; rewrite N.mul_0_l, N.add_0_l.

Ltac read_sep := rewrite expect_cons; cbn [mbind option_bind].

Lemma fromisoformat_isoformat t :
  valid_datetime t = true → fromisoformat (isoformat t) = Some t.
Proof.
  intros Hv. unfold fromisoformat, isoformat.
  rewrite list_ascii_of_string_of_list_ascii.
  destruct t as [y mo d h mi s us].
  pose proof Hv as Hv'. unfold valid_datetime in Hv'. simpl in Hv'.
  repeat (apply andb_prop in Hv' as [Hv' ?]).
  repeat match goal with
         | H : (_ <=? _) = true |- _ => apply N.leb_le in H
         | H : (_ <? _) = true |- _ => apply N.ltb_lt in H
         end.
  assert (Hdm : days_in_month y mo ≤ 31).
  { unfold days_in_month. repeat case_match; lia. }
  unfold fromisoformat_chars, isoformat_chars;
    cbn [year month day hour minute second microsecond].
  read_field 4%nat. read_sep. read_field 2%nat. read_sep. read_field 2%nat. read_sep.
  read_field 2%nat. read_sep. read_field 2%nat. read_sep. read_field 2%nat.
  destruct (N.eqb_spec us 0) as [->|Hus].
  - cbn [app read_fraction]. change (Ascii.eqb "Z" ".") with false.
    cbn [mbind option_bind]. change (utc_suffix ["Z"%char]) with true.
    by rewrite Hv.
  - change (("."%char :: pad_digits 6 us) ++ ["Z"%char])
      with ("."%char :: pad_digits 6 us ++ ["Z"%char]).
    unfold read_fraction. rewrite Ascii.eqb_refl.
    read_field 6%nat.
    change (utc_suffix ["Z"%char]) with true.
    by rewrite Hv.
Qed.


(** ** The snapshot model reads back what it dumps *)

Lemma valid_snapshot_spec p :
  valid_snapshot p = true ↔
  product_key p ≠ ""%string ∧ (0 ≤ price p)%Qc ∧ valid_datetime (scraped_at p) = true.
Proof.
  unfold valid_snapshot.
  rewrite !andb_true_iff, negb_true_iff, bool_decide_eq_true.
  destruct (String.eqb_spec (product_key p) ""); intuition congruence.
Qed.

Lemma model_validate_model_dump now p :
  valid_snapshot p = true → model_validate now (model_dump p) = Ok p.
Proof.
  intros (Hk & Hp & Ht)%valid_snapshot_spec.
  destruct p as [k ti pr c u t a co]; simpl in *.
  unfold model_validate, model_dump; cbn [product_key title price currency url
    scraped_at availability condition].
  unfold required_key. rewrite lookup_insert_eq.
  destruct (String.eqb_spec k "") as [->|_]; [done|].
  unfold text_field, price_field, time_field, optional_field.
  repeat (rewrite ?lookup_insert_eq; rewrite ?lookup_insert_ne by done).
  rewrite (bool_decide_eq_true_2 _ Hp), (fromisoformat_isoformat _ Ht).
  by destruct a, co.
Qed.

Ltac bind_step :=
  match goal with
  | |- (?m ≫= _) = Some _ → _ =>
      destruct m as [[??]|]; cbn [mbind option_bind]; [|done]
  | |- (?m ≫= _) = Some _ → _ =>
      destruct m as [?|]; cbn [mbind option_bind]; [|done]
  end.

Lemma fromisoformat_valid s t : fromisoformat s = Some t → valid_datetime t = true.
Proof.
  unfold fromisoformat, fromisoformat_chars.
  generalize (list_ascii_of_string s). intros l.
  repeat bind_step.
  match goal with
  | |- context [utc_suffix ?l' && valid_datetime ?t'] =>
      destruct (utc_suffix l'); [|done];
      destruct (valid_datetime t') eqn:Hv; [|done]
  end.
  by intros [= <-].
Qed.

(** Every record the model builds from a mapping satisfies the model's
    rules, the clock being a valid time. *)
Lemma model_validate_valid now d p :
  valid_datetime now = true → model_validate now d = Ok p → valid_snapshot p = true.
Proof.
  intros Hnow. unfold model_validate. intros Hd. apply valid_snapshot_spec.
  destruct (required_key d) as [k|] eqn:Hk; [|done].
  destruct (text_field "title" d) as [ti|]; [|done].
  destruct (price_field d) as [pr|] eqn:Hpr; [|done].
  destruct (text_field "currency" d) as [c|]; [|done].
  destruct (text_field "url" d) as [u|]; [|done].
  destruct (time_field now d) as [t|] eqn:Ht; [|done].
  destruct (optional_field "availability" d) as [a|]; [|done].
  destruct (optional_field "condition" d) as [co|]; [|done].
  injection Hd as <-. cbn [product_key price scraped_at].
  split_and!.
  - unfold required_key in Hk. repeat case_match; simplify_eq.
    by apply String.eqb_neq.
  - unfold price_field in Hpr. repeat case_match; simplify_eq.
    + match goal with H : bool_decide _ = true |- _ =>
        by apply bool_decide_eq_true in H end.
    + apply Qcle_refl.
  - unfold time_field in Ht. repeat case_match; simplify_eq;
      [by eapply fromisoformat_valid|done].
Qed.

Lemma map_result_valid now ds rows :
  valid_datetime now = true →
  map_result (_dict_to_snapshot now) ds = Ok rows →
  Forall (λ p, valid_snapshot p = true) rows.
Proof.
  intros Hnow. revert rows. induction ds as [|d ds IH]; intros rows; cbn [map_result].
  - intros [= <-]. constructor.
  - destruct (_dict_to_snapshot now d) as [p|] eqn:Hp; [|done].
    destruct (map_result _ ds) as [ps|]; [|done].
    intros [= <-]. constructor; [|by apply IH].
    by apply (model_validate_valid now d).
Qed.

Lemma map_result_model_dump now rows :
  Forall (λ p, valid_snapshot p = true) rows →
  map_result (_dict_to_snapshot now) (model_dump <$> rows) = Ok rows.
Proof.
  induction 1 as [|p rows Hp _ IH]; [done|].
  rewrite fmap_cons. cbn [map_result].
  change (_dict_to_snapshot now (model_dump p)) with (model_validate now (model_dump p)).
  rewrite (model_validate_model_dump _ _ Hp). cbn [mbind result_bind].
  by rewrite IH.
Qed.


(** ** The deduplicator *)

Section Dedupe.

Implicit Types (seen : gset (string * datetime)) (rows : list ProductSnapshot).

Lemma not_elem_of_add (k k' : string * datetime) seen :
  k ∉ {[k']} ∪ seen → k' ≠ k ∧ k ∉ seen.
Proof. rewrite not_elem_of_union, not_elem_of_singleton. naive_solver. Qed.

Lemma elem_of_dedupe_loop seen rows x :
  x ∈ dedupe_loop seen rows → x ∈ rows ∧ dedup_key x ∉ seen.
Proof.
  revert seen. induction rows as [|r rows IH]; intros seen; simpl.
  - by intros ?%elem_of_nil.
  - case_decide as Hr.
    + intros [??]%IH. split; [by right|done].
    + intros [->|[? Hx]%IH]%elem_of_cons.
      * split; [by left|done].
      * split; [by right|set_solver].
Qed.

Lemma dedupe_loop_sublist seen rows : dedupe_loop seen rows `sublist_of` rows.
Proof.
  revert seen. induction rows as [|r rows IH]; intros seen; simpl; [done|].
  case_decide; [by apply sublist_cons|by apply sublist_skip].
Qed.

Lemma dedupe_loop_NoDup seen rows : NoDup (dedup_key <$> dedupe_loop seen rows).
Proof.
  revert seen. induction rows as [|r rows IH]; intros seen; simpl.
  - constructor.
  - case_decide; [done|]. rewrite fmap_cons. constructor; [|done].
    intros (x & Hk & [_ Hx]%elem_of_dedupe_loop)%list_elem_of_fmap.
    apply Hx, elem_of_union_l, elem_of_singleton. done.
Qed.

Lemma dedupe_loop_id seen rows :
  NoDup (dedup_key <$> rows) →
  (∀ x, x ∈ rows → dedup_key x ∉ seen) →
  dedupe_loop seen rows = rows.
Proof.
  revert seen. induction rows as [|r rows IH]; intros seen Hnd Hseen; simpl; [done|].
  rewrite fmap_cons in Hnd. apply NoDup_cons in Hnd as [Hr Hnd].
  assert (Hnew : dedup_key r ∉ seen) by (apply Hseen; by left).
  rewrite (decide_False _ _ Hnew).
  f_equal. apply IH; [done|].
  intros x Hx [Hk%elem_of_singleton|?]%elem_of_union.
  - apply Hr, list_elem_of_fmap. eauto.
  - by apply (Hseen x); [right|].
Qed.

(** Only the keys that occur among the rows matter in [seen]. *)
Lemma dedupe_loop_ext seen1 seen2 rows :
  (∀ x, x ∈ rows → dedup_key x ∈ seen1 ↔ dedup_key x ∈ seen2) →
  dedupe_loop seen1 rows = dedupe_loop seen2 rows.
Proof.
  revert seen1 seen2. induction rows as [|r rows IH]; intros s1 s2 Hs; simpl; [done|].
  assert (Hr : dedup_key r ∈ s1 ↔ dedup_key r ∈ s2) by (apply Hs; by left).
  assert (Hrows : ∀ x, x ∈ rows → dedup_key x ∈ s1 ↔ dedup_key x ∈ s2).
  { intros x Hx. apply Hs. by right. }
  repeat case_decide; try tauto.
  - by apply IH.
  - f_equal. apply IH. intros x Hx. by rewrite !elem_of_union, (Hrows x Hx).
Qed.

Lemma dedupe_loop_app seen rows1 rows2 :
  dedupe_loop seen (rows1 ++ rows2) =
  dedupe_loop seen rows1 ++
  dedupe_loop (list_to_set (dedup_key <$> rows1) ∪ seen) rows2.
Proof.
  revert seen. induction rows1 as [|r rows1 IH]; intros seen; simpl.
  - f_equal. set_solver.
  - case_decide as Hr.
    + rewrite IH. f_equal. f_equal. set_solver.
    + simpl. f_equal. rewrite IH. f_equal. f_equal. set_solver.
Qed.

Lemma dedupe_snapshots_NoDup rows : NoDup (dedup_key <$> dedupe_snapshots rows).
Proof. apply dedupe_loop_NoDup. Qed.

Lemma dedupe_snapshots_id rows :
  NoDup (dedup_key <$> rows) → dedupe_snapshots rows = rows.
Proof. intros. apply dedupe_loop_id; [done|set_solver]. Qed.

(** History first, then whatever of the fetch is new to it. *)
Lemma dedupe_snapshots_app_disjoint rows1 rows2 :
  NoDup (dedup_key <$> rows1) →
  (∀ x y, x ∈ rows1 → y ∈ rows2 → dedup_key x ≠ dedup_key y) →
  dedupe_snapshots (rows1 ++ rows2) = rows1 ++ dedupe_snapshots rows2.
Proof.
  intros Hnd Hdisj. unfold dedupe_snapshots.
  rewrite dedupe_loop_app, dedupe_loop_id by (done || set_solver).
  f_equal. apply dedupe_loop_ext. intros y Hy.
  split; [|set_solver].
  intros [(x & Hk & Hx)%elem_of_list_to_set%list_elem_of_fmap|?]%elem_of_union;
    [|done].
  by destruct (Hdisj x y Hx Hy).
Qed.

(** The loop computes what the specification describes. *)
Lemma dedupe_loop_first_occurrences seen earlier rows :
  (∀ k, k ∈ seen ↔ k ∈ dedup_key <$> earlier) →
  dedupe_loop seen rows = first_occurrences earlier rows.
Proof.
  revert seen earlier. induction rows as [|r rows IH]; intros seen earlier Hs; simpl; [done|].
  assert (Hnext : ∀ k, k ∈ {[dedup_key r]} ∪ seen ↔ k ∈ dedup_key <$> (earlier ++ [r])).
  { intros k. rewrite fmap_app, elem_of_app, elem_of_union, Hs. set_solver. }
  case_decide as Hr; case_bool_decide as Hr'; try (apply Hs in Hr; done);
    try (apply Hs in Hr'; done).
  - apply IH. intros k. rewrite <- Hnext. set_solver.
  - f_equal. by apply IH.
Qed.

Lemma first_index_Some k rows j :
  first_index k rows = Some j →
  ∃ x, rows !! j = Some x ∧ dedup_key x = k ∧
       ∀ i y, (i < j)%nat → rows !! i = Some y → dedup_key y ≠ k.
Proof.
  revert j. induction rows as [|r rows IH]; intros j; simpl; [done|].
  case_decide as Hr.
  - intros [= <-]. exists r. split_and!; [done..|]. intros; lia.
  - destruct (first_index k rows) as [j'|] eqn:Hj; simpl; [|done].
    intros [= <-]. destruct (IH j' eq_refl) as (x & Hx & Hk & Hbefore).
    exists x. split_and!; [done..|].
    intros [|i] y Hi; simpl; [by intros [= <-]|].
    apply Hbefore. lia.
Qed.

(** A survivor stands where its key first occurs in the input. *)
Lemma dedupe_loop_lookup seen rows i x :
  dedupe_loop seen rows !! i = Some x →
  (dedup_key x ∉ seen) ∧
  (∃ j, first_index (dedup_key x) rows = Some j ∧ rows !! j = Some x).
Proof.
  revert seen i. induction rows as [|r rows IH]; intros seen i; simpl; [done|].
  case_decide as Hr.
  - intros (Hx & j & Hj & Hrows)%IH. split; [done|].
    exists (S j). rewrite decide_False by congruence.
    by rewrite Hj.
  - destruct i as [|i]; simpl.
    + intros [= <-]. split; [done|]. exists O. by rewrite decide_True.
    + intros ([Hne Hx]%not_elem_of_add & j & Hj & Hrows)%IH. split; [done|].
      exists (S j). rewrite (decide_False _ _ Hne).
      by rewrite Hj.
Qed.

Lemma dedupe_loop_order seen rows i1 i2 x1 x2 :
  (i1 < i2)%nat →
  dedupe_loop seen rows !! i1 = Some x1 →
  dedupe_loop seen rows !! i2 = Some x2 →
  ∃ j1 j2, first_index (dedup_key x1) rows = Some j1 ∧
           first_index (dedup_key x2) rows = Some j2 ∧
           rows !! j1 = Some x1 ∧ rows !! j2 = Some x2 ∧ (j1 < j2)%nat.
Proof.
  revert seen i1 i2. induction rows as [|r rows IH]; intros seen i1 i2 Hlt; simpl; [done|].
  case_decide as Hr.
  - intros H1 H2.
    destruct (dedupe_loop_lookup _ _ _ _ H1) as [Hx1 _].
    destruct (dedupe_loop_lookup _ _ _ _ H2) as [Hx2 _].
    destruct (IH _ _ _ Hlt H1 H2) as (j1 & j2 & Hj1 & Hj2 & ? & ? & ?).
    exists (S j1), (S j2). rewrite !decide_False by congruence.
    rewrite Hj1, Hj2. split_and!; (done || lia).
  - destruct i2 as [|i2]; [lia|].
    destruct i1 as [|i1]; simpl.
    + intros [= <-] ([Hne Hx2]%not_elem_of_add & j2 & Hj2 & ?)%dedupe_loop_lookup.
      exists O, (S j2). rewrite decide_True by done.
      rewrite (decide_False _ _ Hne), Hj2.
      split_and!; (done || lia).
    + intros H1 H2.
      destruct (dedupe_loop_lookup _ _ _ _ H1) as [[Hne1 Hx1]%not_elem_of_add _].
      destruct (dedupe_loop_lookup _ _ _ _ H2) as [[Hne2 Hx2]%not_elem_of_add _].
      assert (Hlt' : (i1 < i2)%nat) by lia.
      destruct (IH _ _ _ Hlt' H1 H2) as (j1 & j2 & Hj1 & Hj2 & ? & ? & ?).
      exists (S j1), (S j2).
      rewrite (decide_False _ _ Hne1), (decide_False _ _ Hne2).
      rewrite Hj1, Hj2. split_and!; (done || lia).
Qed.

End Dedupe.

(** ** The run, step by step *)

Section PipelineFacts.

Variable source_fetch : string → datetime → result (list ProductSnapshot).

Lemma load_history_unfold path w :
  load_history path w =
  (match files w !! path with
   | None => Ok []
   | Some c =>
       match parse_records c with
       | Some ds => map_result (_dict_to_snapshot (clock w)) ds
       | None => Raise (CorruptStateError path)
       end
   end, log (EvReadJson path) w).
Proof.
  unfold load_history, read_json_if_exists, io_now, io_lift, mbind, io_bind.
  cbn [files log clock].
  destruct (files w !! path) as [c|]; [|done].
  by destruct (parse_records c).
Qed.

(** Loading looks at the files and the clock only. *)
Lemma load_history_log e path w :
  (load_history path (log e w)).1 = (load_history path w).1.
Proof. by rewrite !load_history_unfold. Qed.

(** Every way a run can go, with the world it leaves behind. *)
Lemma run_pipeline_unfold base_url out_csv out_json w :
  run_pipeline source_fetch base_url out_csv out_json w =
  let w1 := log (EvFetch base_url) w in
  match source_fetch base_url (clock w) with
  | Raise e => (Raise e, w1)
  | Ok new_rows =>
      let w2 := log (EvReadJson out_json) w1 in
      match (load_history out_json w).1 with
      | Raise e => (Raise e, w2)
      | Ok existing_rows =>
          let combined := dedupe_snapshots (existing_rows ++ new_rows) in
          let w3 := log (EvWriteJson out_json combined) w2 in
          if decide (out_json ∈ write_denied w) then (Raise (IOError out_json), w3)
          else
            let w4 := log (EvWriteCsv out_csv combined)
                        (put_file out_json (json_document combined) w3) in
            if decide (out_csv ∈ write_denied w) then (Raise (IOError out_csv), w4)
            else (Ok combined, put_file out_csv (csv_document combined) w4)
      end
  end.
Proof.
  rewrite load_history_unfold. cbn [fst].
  unfold run_pipeline, fetch, read_json_if_exists, io_now, io_lift, write_json,
    write_csv, mbind, io_bind, mret, io_ret.
  cbn [files log clock write_denied put_file].
  destruct (source_fetch base_url (clock w)) as [new_rows|e]; [|done].
  destruct (files w !! out_json) as [c|].
  - destruct (parse_records c) as [ds|]; [|done].
    destruct (map_result _ ds) as [existing_rows|e]; [|done].
    by repeat case_decide.
  - cbn [map_result app]. by repeat case_decide.
Qed.

End PipelineFacts.

(** * The claims *)

Import Samples.

(** ** Deduplication *)

(** C4: the deduplicator is idempotent: deduplicating a deduplicated
    sequence changes nothing, for every sequence of snapshots. *)
Theorem dedupe_snapshots_idempotent (S : list ProductSnapshot) :
  dedupe_snapshots (dedupe_snapshots S) = dedupe_snapshots S.
Proof. apply dedupe_snapshots_id, dedupe_snapshots_NoDup. Qed.

(** C5: the survivors of [dedupe_snapshots] are a subsequence of the input,
    each standing for the first occurrence of its key, and two survivors
    come in the order of those first occurrences. *)
Theorem dedupe_snapshots_keeps_first_occurrence_order
    (S : list ProductSnapshot) (i1 i2 : nat) (x1 x2 : ProductSnapshot) :
  (i1 < i2)%nat →
  dedupe_snapshots S !! i1 = Some x1 →
  dedupe_snapshots S !! i2 = Some x2 →
  dedupe_snapshots S `sublist_of` S ∧
  dedupe_snapshots S = first_occurrences [] S ∧
  ∃ j1 j2, first_index (dedup_key x1) S = Some j1 ∧
           first_index (dedup_key x2) S = Some j2 ∧
           S !! j1 = Some x1 ∧ S !! j2 = Some x2 ∧ (j1 < j2)%nat.
Proof.
  intros Hlt H1 H2. split_and!.
  - apply dedupe_loop_sublist.
  - apply dedupe_loop_first_occurrences. set_solver.
  - by eapply dedupe_loop_order.
Qed.

Lemma dedupe_snapshots_keeps_first_occurrence_order_witness :
  let S := [iphone_t1; iphone_t2; iphone_t1_upper; iphone_t2] in
  dedupe_snapshots S `sublist_of` S ∧
  dedupe_snapshots S = first_occurrences [] S ∧
  ∃ j1 j2, first_index (dedup_key iphone_t1) S = Some j1 ∧
           first_index (dedup_key iphone_t2) S = Some j2 ∧
           S !! j1 = Some iphone_t1 ∧ S !! j2 = Some iphone_t2 ∧ (j1 < j2)%nat.
Proof.
  apply (dedupe_snapshots_keeps_first_occurrence_order
           [iphone_t1; iphone_t2; iphone_t1_upper; iphone_t2] 0 1).
  - lia.
  - reflexivity.
  - reflexivity.
Defined.

(** ** Serialization and the store *)

(** C7: a snapshot is read back from its field-for-field mapping as it
    was, and its timestamp from its ISO-8601 text as it was. *)
Theorem snapshot_round_trip (now : datetime) (P : ProductSnapshot) :
  valid_snapshot P = true →
  _dict_to_snapshot now (model_dump P) = Ok P ∧
  model_dump P !! "scraped_at"%string = Some (JStr (isoformat (scraped_at P))) ∧
  fromisoformat (isoformat (scraped_at P)) = Some (scraped_at P).
Proof.
  intros Hv. split_and!.
  - by apply model_validate_model_dump.
  - unfold model_dump.
    by repeat (rewrite ?lookup_insert_eq; rewrite ?lookup_insert_ne by done).
  - apply fromisoformat_isoformat.
    by apply valid_snapshot_spec in Hv as (_ & _ & Ht).
Qed.

Lemma snapshot_round_trip_witness :
  _dict_to_snapshot t1 (model_dump iphone_t2) = Ok iphone_t2 ∧
  model_dump iphone_t2 !! "scraped_at"%string = Some (JStr "2024-01-02T10:30:05.000123Z") ∧
  fromisoformat "2024-01-02T10:30:05.000123Z" = Some t2.
Proof.
  apply (snapshot_round_trip t1 iphone_t2). vm_compute. reflexivity.
Defined.


Lemma parse_records_json_document rows :
  parse_records (json_document rows) = Some (model_dump <$> rows).
Proof.
  unfold parse_records, json_document.
  induction rows as [|r rows IH]; [done|].
  rewrite !fmap_cons. cbn [mapM as_object]. rewrite IH. done.
Qed.








(** ** The run *)

Section Run.

Variable source_fetch : string → datetime → result (list ProductSnapshot).

Abbreviation run := (run_pipeline source_fetch).

(** C6: a run that returns has fetched, then loaded the store, merged the
    loaded rows ahead of the fetched ones, deduplicated, written the JSON
    file, then the CSV file, and it returns the merged rows. *)
Theorem run_pipeline_sequence (base_url out_csv out_json : string)
    (w w' : world) (merged : list ProductSnapshot) :
  run base_url out_csv out_json w = (Ok merged, w') →
  ∃ new_rows existing_rows,
    source_fetch base_url (clock w) = Ok new_rows ∧
    (load_history out_json w).1 = Ok existing_rows ∧
    merged = dedupe_snapshots (existing_rows ++ new_rows) ∧
    trace w' = trace w ++ [EvFetch base_url; EvReadJson out_json;
                           EvWriteJson out_json merged; EvWriteCsv out_csv merged] ∧
    files w' = <[out_csv := csv_document merged]>
                 (<[out_json := json_document merged]> (files w)).
Proof.
  rewrite run_pipeline_unfold. cbv zeta.
  destruct (source_fetch base_url (clock w)) as [new_rows|e]; [|done].
  destruct (load_history out_json w).1 as [existing_rows|e]; [|done].
  repeat case_decide; try done.
  intros [= <- <-]. exists new_rows, existing_rows.
  split_and!; try done.
  cbn [trace put_file log]. by rewrite <- !app_assoc.
Qed.

(** C10: once the fetch and the load have succeeded, the rows merged ahead
    of the fetched ones are the records held by the file at [out_json]
    before the run (none when there is no file), and the merged rows are
    written to that same path. *)
Theorem run_pipeline_accumulates_in_place (base_url out_csv out_json : string)
    (w : world) (new_rows existing_rows : list ProductSnapshot) :
  source_fetch base_url (clock w) = Ok new_rows →
  (load_history out_json w).1 = Ok existing_rows →
  let merged := dedupe_snapshots (existing_rows ++ new_rows) in
  let w' := (run base_url out_csv out_json w).2 in
  match files w !! out_json with
  | None => existing_rows = []
  | Some c => ∃ ds, parse_records c = Some ds ∧
                    map_result (_dict_to_snapshot (clock w)) ds = Ok existing_rows
  end ∧
  take 3 (drop (length (trace w)) (trace w')) =
    [EvFetch base_url; EvReadJson out_json; EvWriteJson out_json merged] ∧
  (out_json ∉ write_denied w → out_csv ≠ out_json →
   files w' !! out_json = Some (json_document merged)) ∧
  (out_json ∉ write_denied w → out_csv ∉ write_denied w →
   (run base_url out_csv out_json w).1 = Ok merged ∧
   files w' = <[out_csv := csv_document merged]>
                (<[out_json := json_document merged]> (files w))).
Proof.
  intros Hfetch Hload merged w'. subst w'.
  rewrite run_pipeline_unfold. cbv zeta. rewrite Hfetch, Hload. fold merged.
  rewrite load_history_unfold in Hload. cbn [fst] in Hload.
  split_and!.
  - destruct (files w !! out_json) as [c|]; [|by injection Hload].
    destruct (parse_records c) as [ds|]; [|done]. by exists ds.
  - repeat case_decide; cbn [snd trace put_file log];
      rewrite <- ?app_assoc; by rewrite drop_app_length.
  - intros Hjson Hne. rewrite (decide_False _ _ Hjson).
    case_decide; cbn [snd files put_file log].
    + by rewrite lookup_insert_eq.
    + by rewrite lookup_insert_ne, lookup_insert_eq.
  - intros Hjson Hcsv.
    by rewrite (decide_False _ _ Hjson), (decide_False _ _ Hcsv).
Qed.

(** C2: when the fetch fails, or loading the store fails, the run raises
    that very error, no file is changed and no write was attempted. *)
Theorem run_pipeline_aborts_before_writing (base_url out_csv out_json : string)
    (w : world) (e : exn) :
  source_fetch base_url (clock w) = Raise e ∨
  (∃ new_rows, source_fetch base_url (clock w) = Ok new_rows ∧
               (load_history out_json w).1 = Raise e) →
  (run base_url out_csv out_json w).1 = Raise e ∧
  files (run base_url out_csv out_json w).2 = files w ∧
  ∃ k, trace (run base_url out_csv out_json w).2 =
       trace w ++ take k [EvFetch base_url; EvReadJson out_json].
Proof.
  rewrite run_pipeline_unfold. cbv zeta.
  intros [Hfetch|(new_rows & Hfetch & Hload)].
  - rewrite Hfetch. split_and!; [done..|]. by exists 1%nat.
  - rewrite Hfetch, Hload. split_and!; [done..|]. exists 2%nat.
    cbn [snd trace log take]. by rewrite <- app_assoc.
Qed.

(** A record that fails validation fails the load with that error. *)
Lemma load_history_validation_error path w c ds e :
  files w !! path = Some c →
  parse_records c = Some ds →
  map_result (_dict_to_snapshot (clock w)) ds = Raise e →
  (load_history path w).1 = Raise e.
Proof.
  intros Hc Hds He. rewrite load_history_unfold. cbn [fst].
  by rewrite Hc, Hds.
Qed.

(** C1, as the code has it: when the CSV write fails, the error reaches the
    caller and the JSON file holds the merged rows; it is not put back. *)
Theorem run_pipeline_csv_failure_keeps_new_json (base_url out_csv out_json : string)
    (w : world) (new_rows existing_rows : list ProductSnapshot) :
  source_fetch base_url (clock w) = Ok new_rows →
  (load_history out_json w).1 = Ok existing_rows →
  out_json ∉ write_denied w →
  out_csv ∈ write_denied w →
  (run base_url out_csv out_json w).1 = Raise (IOError out_csv) ∧
  files (run base_url out_csv out_json w).2 =
    <[out_json := json_document (dedupe_snapshots (existing_rows ++ new_rows))]> (files w).
Proof.
  intros Hfetch Hload Hjson Hcsv.
  rewrite run_pipeline_unfold. cbv zeta. rewrite Hfetch, Hload.
  by rewrite (decide_False _ _ Hjson), (decide_True _ _ Hcsv).
Qed.

(** A history without a repeated key, followed by a fetch at other
    timestamps, is kept whole and the first occurrence of each key of the
    fetch is appended to it. *)
Lemma run_pipeline_merge_disjoint (base_url out_csv out_json : string)
    (w : world) (H F : list ProductSnapshot) :
  source_fetch base_url (clock w) = Ok F →
  (load_history out_json w).1 = Ok H →
  out_json ∉ write_denied w →
  out_csv ∉ write_denied w →
  NoDup (dedup_key <$> H) →
  (∀ h f, h ∈ H → f ∈ F → scraped_at h ≠ scraped_at f) →
  (run base_url out_csv out_json w).1 = Ok (H ++ first_occurrences [] F) ∧
  (NoDup (dedup_key <$> F) →
   (run base_url out_csv out_json w).1 = Ok (H ++ F) ∧
   length (H ++ F) = (length H + length F)%nat).
Proof.
  intros Hfetch Hload Hjson Hcsv Hnd Hdisj.
  rewrite run_pipeline_unfold. cbv zeta. rewrite Hfetch, Hload.
  rewrite (decide_False _ _ Hjson), (decide_False _ _ Hcsv). cbn [fst].
  rewrite dedupe_snapshots_app_disjoint; [|done|].
  - split.
    + do 2 f_equal. apply dedupe_loop_first_occurrences. set_solver.
    + intros HF. rewrite (dedupe_snapshots_id F HF). split; [done|].
      apply length_app.
  - intros h f Hh Hf [= _ Ht]. by apply (Hdisj h f).
Qed.

End Run.

(** ** The run on the sample data *)

Lemma run_pipeline_sequence_witness :
  let w := stocked_world in
  let merged := [iphone_t1; iphone_t2] in
  let w' := (run_pipeline catalog_t2 catalog_url "prices.csv" "history.json" w).2 in
  ∃ new_rows existing_rows,
    catalog_t2 catalog_url (clock w) = Ok new_rows ∧
    (load_history "history.json" w).1 = Ok existing_rows ∧
    merged = dedupe_snapshots (existing_rows ++ new_rows) ∧
    trace w' = trace w ++ [EvFetch catalog_url; EvReadJson "history.json";
                           EvWriteJson "history.json" merged;
                           EvWriteCsv "prices.csv" merged] ∧
    files w' = <["prices.csv"%string := csv_document merged]>
                 (<["history.json"%string := json_document merged]> (files w)).
Proof.
  apply (run_pipeline_sequence catalog_t2 catalog_url "prices.csv" "history.json"
           stocked_world).
  vm_compute. reflexivity.
Defined.

Lemma run_pipeline_accumulates_in_place_witness :
  let w := stocked_world in
  let merged := dedupe_snapshots ([iphone_t1] ++ [iphone_t2]) in
  let w' := (run_pipeline catalog_t2 catalog_url "prices.csv" "history.json" w).2 in
  match files w !! "history.json"%string with
  | None => [iphone_t1] = []
  | Some c => ∃ ds, parse_records c = Some ds ∧
                    map_result (_dict_to_snapshot (clock w)) ds = Ok [iphone_t1]
  end ∧
  take 3 (drop (length (trace w)) (trace w')) =
    [EvFetch catalog_url; EvReadJson "history.json"; EvWriteJson "history.json" merged] ∧
  ("history.json"%string ∉ write_denied w → "prices.csv"%string ≠ "history.json"%string →
   files w' !! "history.json"%string = Some (json_document merged)) ∧
  ("history.json"%string ∉ write_denied w → "prices.csv"%string ∉ write_denied w →
   (run_pipeline catalog_t2 catalog_url "prices.csv" "history.json" w).1 = Ok merged ∧
   files w' = <["prices.csv"%string := csv_document merged]>
                (<["history.json"%string := json_document merged]> (files w))).
Proof.
  apply (run_pipeline_accumulates_in_place catalog_t2 catalog_url "prices.csv"
           "history.json" stocked_world [iphone_t2] [iphone_t1]).
  - reflexivity.
  - vm_compute. reflexivity.
Defined.

Lemma run_pipeline_aborts_before_writing_witness :
  let r := run_pipeline catalog_t2 catalog_url "prices.csv" "history.json" keyless_world in
  r.1 = Raise (ValidationError "product_key") ∧
  files r.2 = files keyless_world ∧
  ∃ k, trace r.2 =
       trace keyless_world ++ take k [EvFetch catalog_url; EvReadJson "history.json"].
Proof.
  apply (run_pipeline_aborts_before_writing catalog_t2 catalog_url "prices.csv"
           "history.json" keyless_world).
  right. exists [iphone_t2]. split; vm_compute; reflexivity.
Defined.

(** The other two ways to fail before the writes: the catalog is down, the
    store is not an array of objects. *)
Example run_with_catalog_down :
  let r := run_pipeline catalog_down catalog_url "prices.csv" "history.json" stocked_world in
  r.1 = Raise (FetchError catalog_url) ∧ files r.2 = files stocked_world.
Proof. split; vm_compute; reflexivity. Qed.

Example run_with_garbled_store :
  let r := run_pipeline catalog_t2 catalog_url "prices.csv" "history.json" garbled_world in
  r.1 = Raise (CorruptStateError "history.json") ∧ files r.2 = files garbled_world.
Proof. split; vm_compute; reflexivity. Qed.

(** C1 fails on the code: the CSV path refuses the write, the run raises,
    and the JSON file no longer holds what it held before the run. *)
Lemma csv_failure_changes_json :
  let r := run_pipeline catalog_t2 catalog_url "prices.csv" "history.json" csv_locked_world in
  r.1 = Raise (IOError "prices.csv") ∧
  files csv_locked_world !! "history.json"%string = Some (json_document [iphone_t1]) ∧
  files r.2 !! "history.json"%string = Some (json_document [iphone_t1; iphone_t2]) ∧
  files r.2 !! "history.json"%string ≠ files csv_locked_world !! "history.json"%string.
Proof.
  split_and!; [vm_compute; reflexivity..|].
  vm_compute. intros Heq. discriminate Heq.
Qed.

Lemma run_pipeline_csv_failure_keeps_new_json_witness :
  let r := run_pipeline catalog_t2 catalog_url "prices.csv" "history.json" csv_locked_world in
  r.1 = Raise (IOError "prices.csv") ∧
  files r.2 =
    <["history.json"%string := json_document (dedupe_snapshots ([iphone_t1] ++ [iphone_t2]))]>
      (files csv_locked_world).
Proof.
  apply (run_pipeline_csv_failure_keeps_new_json catalog_t2 catalog_url "prices.csv"
           "history.json" csv_locked_world [iphone_t2] [iphone_t1]).
  - reflexivity.
  - vm_compute. reflexivity.
  - vm_compute. discriminate.
  - vm_compute. reflexivity.
Defined.

(** ** The HTTP client *)

Section GetHtml.

Import Http.

Variable client_get : client → string → http_error + response.

(** C9: [get_html] returns the body of a 2xx response, and raises when the
    status is not 2xx or when the transport raises, a timeout included. *)
Theorem get_html_returns_text_or_raises (url : string) (timeout_s : Qc) :
  (∀ r, client_get (mk_client request_headers timeout_s true) url = inr r → is_success r = true →
        get_html client_get url timeout_s = inr (text r)) ∧
  (∀ r, client_get (mk_client request_headers timeout_s true) url = inr r → is_success r = false →
        get_html client_get url timeout_s = inl (HTTPStatusError r)) ∧
  (∀ e, client_get (mk_client request_headers timeout_s true) url = inl e →
        get_html client_get url timeout_s = inl e) ∧
  (client_get (mk_client request_headers timeout_s true) url = inl TimeoutException →
   get_html client_get url timeout_s = inl TimeoutException).
Proof.
  unfold get_html, raise_for_status.
  split_and!.
  - by intros r -> ->.
  - by intros r -> ->.
  - by intros e ->.
  - by intros ->.
Qed.

End GetHtml.

Lemma get_html_returns_text_or_raises_witness :
  Http.get_html server_ok catalog_url Http.default_timeout_s = inr "<html>catalog</html>"%string ∧
  Http.get_html server_missing catalog_url Http.default_timeout_s
    = inl (Http.HTTPStatusError (Http.mk_response 404 "not found")) ∧
  Http.get_html server_slow catalog_url Http.default_timeout_s = inl Http.TimeoutException.
Proof.
  split_and!.
  - apply (proj1 (get_html_returns_text_or_raises server_ok catalog_url
                    Http.default_timeout_s) (Http.mk_response 200 "<html>catalog</html>"));
      reflexivity.
  - apply (proj1 (proj2 (get_html_returns_text_or_raises server_missing catalog_url
                           Http.default_timeout_s)) (Http.mk_response 404 "not found"));
      reflexivity.
  - apply (proj2 (proj2 (proj2 (get_html_returns_text_or_raises server_slow catalog_url
                                  Http.default_timeout_s)))).
    vm_compute. reflexivity.
Defined.

(** ** The scenarios of the specification *)

(** An empty store and a fetch of one record: one record is returned, the
    JSON file holds that one object, the CSV file a header and one row. *)
Example scenario_first_run :
  let r := run_pipeline (λ _ _, Ok [iphone_t1]) catalog_url "prices.csv" "history.json"
             fresh_world in
  r.1 = Ok [iphone_t1] ∧
  files r.2 !! "history.json"%string = Some (JsonText (JArr [JObj (model_dump iphone_t1)])) ∧
  files r.2 !! "prices.csv"%string = Some (CsvText [csv_header; csv_row iphone_t1]).
Proof. split_and!; vm_compute; reflexivity. Qed.

(** One record at [t1] in the store, the same product at [t2] and another
    price in the fetch: both are kept, the older first. *)
Example scenario_price_history :
  (run_pipeline catalog_t2 catalog_url "prices.csv" "history.json" stocked_world).1
    = Ok [iphone_t1; iphone_t2].
Proof. vm_compute. reflexivity. Qed.

(** Two fetched records with one product and timestamp, the titles cased
    differently: the first is kept. *)
Example scenario_same_key_in_one_fetch :
  (run_pipeline (λ _ _, Ok [iphone_t1; iphone_t1_upper]) catalog_url "prices.csv"
     "history.json" fresh_world).1 = Ok [iphone_t1].
Proof. vm_compute. reflexivity. Qed.

(** * Further properties of the code *)

(** ** More on the deduplicator *)

Section DedupeMore.

Implicit Types (seen : gset (string * datetime)) (rows : list ProductSnapshot).

(** The keys that survive are those of the input that were not seen. *)
Lemma keys_dedupe_loop seen rows k :
  k ∈ dedup_key <$> dedupe_loop seen rows ↔ k ∈ dedup_key <$> rows ∧ k ∉ seen.
Proof.
  split.
  - intros (x & -> & [Hx Hs]%elem_of_dedupe_loop)%list_elem_of_fmap.
    split; [|done]. apply list_elem_of_fmap. eauto.
  - revert seen. induction rows as [|r rows IH]; intros seen [Hk Hs]; simpl.
    + by rewrite fmap_nil in Hk.
    + rewrite fmap_cons in Hk. apply elem_of_cons in Hk as [->|Hk].
      * rewrite (decide_False _ _ Hs). rewrite fmap_cons. by left.
      * case_decide as Hr; [by apply IH|].
        rewrite fmap_cons. destruct (decide (k = dedup_key r)) as [->|Hne]; [by left|].
        right. apply IH. split; [done|].
        rewrite not_elem_of_union, not_elem_of_singleton. done.
Qed.

(** Keys seen beforehand act as a filter on the rows. *)
Lemma dedupe_loop_filter seen1 seen2 rows :
  dedupe_loop (seen1 ∪ seen2) rows =
  dedupe_loop seen2 (filter (λ r, dedup_key r ∉ seen1) rows).
Proof.
  revert seen2. induction rows as [|r rows IH]; intros seen2; [done|].
  destruct (decide (dedup_key r ∈ seen1)) as [H1|H1].
  - rewrite filter_cons_False by (intros Hn; by apply Hn).
    cbn [dedupe_loop]. rewrite decide_True by (apply elem_of_union; by left).
    apply IH.
  - rewrite filter_cons_True by done. cbn [dedupe_loop].
    destruct (decide (dedup_key r ∈ seen2)) as [H2|H2].
    + rewrite decide_True by (apply elem_of_union; by right). apply IH.
    + rewrite decide_False by (rewrite elem_of_union; tauto).
      f_equal. rewrite <- IH. f_equal.
      apply set_eq. intros k. rewrite !elem_of_union. tauto.
Qed.

Lemma dedupe_snapshots_app_l rows1 rows2 :
  dedupe_snapshots (dedupe_snapshots rows1 ++ rows2) = dedupe_snapshots (rows1 ++ rows2).
Proof.
  unfold dedupe_snapshots. rewrite !dedupe_loop_app.
  fold (dedupe_snapshots rows1).
  change (dedupe_loop ∅ (dedupe_snapshots rows1))
    with (dedupe_snapshots (dedupe_snapshots rows1)).
  rewrite (dedupe_snapshots_id (dedupe_snapshots rows1))
    by apply dedupe_snapshots_NoDup.
  f_equal. apply dedupe_loop_ext. intros x _.
  rewrite !elem_of_union, !elem_of_list_to_set.
  unfold dedupe_snapshots. rewrite keys_dedupe_loop.
  pose proof (not_elem_of_empty (C:=gset (string * datetime)) (dedup_key x)).
  tauto.
Qed.

(** Rows whose keys are all known add nothing. *)
Lemma dedupe_snapshots_app_known rows1 rows2 :
  (∀ x, x ∈ rows2 → dedup_key x ∈ dedup_key <$> rows1) →
  dedupe_snapshots (rows1 ++ rows2) = dedupe_snapshots rows1.
Proof.
  intros Hknown. unfold dedupe_snapshots. rewrite dedupe_loop_app.
  rewrite <- (app_nil_r (dedupe_loop ∅ rows1)) at 2. f_equal.
  rewrite dedupe_loop_filter.
  replace (filter _ rows2) with (@nil ProductSnapshot); [done|].
  symmetry. induction rows2 as [|x rows2 IH]; [done|].
  rewrite filter_cons_False.
  - apply IH. intros y Hy. apply Hknown. by right.
  - intros Hn. apply Hn, elem_of_list_to_set, Hknown. by left.
Qed.

(** A history without a repeated key stays in front; of the fetched rows
    those with a key of the history are dropped. *)
Lemma dedupe_snapshots_app_history rows1 rows2 :
  NoDup (dedup_key <$> rows1) →
  dedupe_snapshots (rows1 ++ rows2) =
  rows1 ++ dedupe_snapshots (filter (λ r, dedup_key r ∉ dedup_key <$> rows1) rows2).
Proof.
  intros Hnd. unfold dedupe_snapshots at 1. rewrite dedupe_loop_app.
  fold (dedupe_snapshots rows1). rewrite (dedupe_snapshots_id _ Hnd). f_equal.
  rewrite dedupe_loop_filter. unfold dedupe_snapshots. f_equal.
  apply list_filter_iff. intros x. by rewrite elem_of_list_to_set.
Qed.

Lemma dedupe_snapshots_Forall (P : ProductSnapshot → Prop) rows :
  Forall P rows → Forall P (dedupe_snapshots rows).
Proof.
  rewrite !Forall_forall. intros HP x [Hx _]%elem_of_dedupe_loop. by apply HP.
Qed.

End DedupeMore.

(** ** More on the run *)

(** A store written by [write_json] loads as the rows written. *)
Lemma load_history_stored path w rows :
  files w !! path = Some (json_document rows) →
  Forall (λ p, valid_snapshot p = true) rows →
  (load_history path w).1 = Ok rows.
Proof.
  intros Hfile Hrows. rewrite load_history_unfold. cbn [fst].
  rewrite Hfile, parse_records_json_document.
  by apply map_result_model_dump.
Qed.

(** What the store gives is valid, the clock being a valid time. *)
Lemma load_history_valid path w rows :
  valid_datetime (clock w) = true →
  (load_history path w).1 = Ok rows →
  Forall (λ p, valid_snapshot p = true) rows.
Proof.
  intros Hnow. rewrite load_history_unfold. cbn [fst].
  destruct (files w !! path) as [c|]; [|intros [= <-]; constructor].
  destruct (parse_records c) as [ds|]; [|done].
  by apply map_result_valid.
Qed.

Section RunMore.

Variable source_fetch : string → datetime → result (list ProductSnapshot).

Abbreviation run := (run_pipeline source_fetch).

Lemma run_pipeline_success base_url out_csv out_json w new_rows existing_rows :
  source_fetch base_url (clock w) = Ok new_rows →
  (load_history out_json w).1 = Ok existing_rows →
  out_json ∉ write_denied w →
  out_csv ∉ write_denied w →
  let merged := dedupe_snapshots (existing_rows ++ new_rows) in
  (run base_url out_csv out_json w).1 = Ok merged ∧
  files (run base_url out_csv out_json w).2 =
    <[out_csv := csv_document merged]> (<[out_json := json_document merged]> (files w)) ∧
  write_denied (run base_url out_csv out_json w).2 = write_denied w ∧
  clock (run base_url out_csv out_json w).2 = clock w.
Proof.
  intros Hfetch Hload Hjson Hcsv merged.
  rewrite run_pipeline_unfold. cbv zeta. rewrite Hfetch, Hload.
  by rewrite (decide_False _ _ Hjson), (decide_False _ _ Hcsv).
Qed.

(** X1: when the JSON write is refused the run raises that error, the CSV write
    is not attempted and no file has changed. *)
Theorem run_pipeline_json_failure_stops_before_csv
    (base_url out_csv out_json : string) (w : world)
    (new_rows existing_rows : list ProductSnapshot) :
  source_fetch base_url (clock w) = Ok new_rows →
  (load_history out_json w).1 = Ok existing_rows →
  out_json ∈ write_denied w →
  (run base_url out_csv out_json w).1 = Raise (IOError out_json) ∧
  files (run base_url out_csv out_json w).2 = files w ∧
  trace (run base_url out_csv out_json w).2 =
    trace w ++ [EvFetch base_url; EvReadJson out_json;
                EvWriteJson out_json (dedupe_snapshots (existing_rows ++ new_rows))].
Proof.
  intros Hfetch Hload Hjson.
  rewrite run_pipeline_unfold. cbv zeta. rewrite Hfetch, Hload.
  rewrite (decide_True _ _ Hjson). cbn [fst snd files trace log].
  by rewrite <- !app_assoc.
Qed.

(** X2: a run that returns gives rows with pairwise distinct keys, and the keys
    are exactly those of the stored and of the fetched rows: no observation
    is lost, none is kept twice. *)
Theorem run_pipeline_result_keys
    (base_url out_csv out_json : string) (w : world)
    (new_rows existing_rows merged : list ProductSnapshot) :
  source_fetch base_url (clock w) = Ok new_rows →
  (load_history out_json w).1 = Ok existing_rows →
  (run base_url out_csv out_json w).1 = Ok merged →
  NoDup (dedup_key <$> merged) ∧
  (∀ k, k ∈ dedup_key <$> merged ↔
        k ∈ dedup_key <$> existing_rows ∨ k ∈ dedup_key <$> new_rows) ∧
  merged `sublist_of` existing_rows ++ new_rows.
Proof.
  intros Hfetch Hload.
  rewrite run_pipeline_unfold. cbv zeta. rewrite Hfetch, Hload.
  repeat case_decide; try done. intros [= <-].
  split_and!.
  - apply dedupe_snapshots_NoDup.
  - intros k. unfold dedupe_snapshots. rewrite keys_dedupe_loop, fmap_app, elem_of_app.
    pose proof (not_elem_of_empty (C:=gset (string * datetime)) k). tauto.
  - apply dedupe_loop_sublist.
Qed.

(** X3: a stored history without a repeated key is never rewritten: it stays
    in front, in its order, and a fetched row that carries the key of a
    stored row is dropped, whatever else it says. *)
Theorem run_pipeline_keeps_history
    (base_url out_csv out_json : string) (w : world)
    (new_rows existing_rows : list ProductSnapshot) :
  source_fetch base_url (clock w) = Ok new_rows →
  (load_history out_json w).1 = Ok existing_rows →
  out_json ∉ write_denied w →
  out_csv ∉ write_denied w →
  NoDup (dedup_key <$> existing_rows) →
  (run base_url out_csv out_json w).1 =
    Ok (existing_rows ++
        dedupe_snapshots
          (filter (λ r, dedup_key r ∉ dedup_key <$> existing_rows) new_rows)) ∧
  (new_rows = [] → (run base_url out_csv out_json w).1 = Ok existing_rows).
Proof.
  intros Hfetch Hload Hjson Hcsv Hnd.
  destruct (run_pipeline_success _ _ _ _ _ _ Hfetch Hload Hjson Hcsv) as (-> & _).
  rewrite (dedupe_snapshots_app_history _ _ Hnd). split; [done|].
  intros ->. by rewrite app_nil_r.
Qed.

(** X4: with one path for both outputs the CSV text replaces the JSON text,
    and the next run finds a store it cannot read. *)
Theorem run_pipeline_same_path_destroys_store
    (base_url path : string) (w : world) (now : datetime)
    (new_rows existing_rows : list ProductSnapshot) :
  source_fetch base_url (clock w) = Ok new_rows →
  (load_history path w).1 = Ok existing_rows →
  path ∉ write_denied w →
  let merged := dedupe_snapshots (existing_rows ++ new_rows) in
  let w' := (run base_url path path w).2 in
  (run base_url path path w).1 = Ok merged ∧
  files w' !! path = Some (csv_document merged) ∧
  (∀ out_csv, (run base_url out_csv path (tick now w')).1 = Raise (CorruptStateError path) ∨
              ∃ e, source_fetch base_url now = Raise e ∧
                   (run base_url out_csv path (tick now w')).1 = Raise e).
Proof.
  intros Hfetch Hload Hpath merged w'.
  destruct (run_pipeline_success _ _ _ _ _ _ Hfetch Hload Hpath Hpath)
    as (Hres & Hfiles & _ & _).
  fold merged in Hres, Hfiles. fold w' in Hfiles.
  assert (Hcsv : files w' !! path = Some (csv_document merged)).
  { by rewrite Hfiles, lookup_insert_eq. }
  split_and!; [done..|].
  intros out_csv. rewrite run_pipeline_unfold. cbv zeta. cbn [clock tick].
  destruct (source_fetch base_url now) as [rows|e]; [left|right; by exists e].
  rewrite load_history_unfold. cbn [fst files tick]. by rewrite Hcsv.
Qed.

End RunMore.

(** ** One run after another *)

Section TwoRuns.

Variables fetch1 fetch2 : string → datetime → result (list ProductSnapshot).

(** The second run loads what the first one merged. *)
Lemma load_history_after_run base_url out_csv out_json w now2 F1 H :
  fetch1 base_url (clock w) = Ok F1 →
  (load_history out_json w).1 = Ok H →
  out_json ∉ write_denied w →
  out_csv ∉ write_denied w →
  out_csv ≠ out_json →
  valid_datetime (clock w) = true →
  Forall (λ p, valid_snapshot p = true) F1 →
  let w1 := tick now2 (run_pipeline fetch1 base_url out_csv out_json w).2 in
  (load_history out_json w1).1 = Ok (dedupe_snapshots (H ++ F1)) ∧
  write_denied w1 = write_denied w ∧ clock w1 = now2.
Proof.
  intros Hfetch Hload Hjson Hcsv Hne Hnow HF1 w1.
  destruct (run_pipeline_success _ _ _ _ _ _ _ Hfetch Hload Hjson Hcsv)
    as (_ & Hfiles & Hdenied & _).
  split_and!; [|done..].
  apply load_history_stored.
  - subst w1. cbn [files tick]. rewrite Hfiles.
    by rewrite lookup_insert_ne, lookup_insert_eq.
  - apply dedupe_snapshots_Forall, Forall_app. split; [|done].
    by apply (load_history_valid out_json w).
Qed.

(** X5: two runs in a row give what one run over both fetches would give: the
    stored history, then the first fetch, then the second, deduplicated. *)
Theorem run_pipeline_twice
    (base_url out_csv out_json : string) (w : world) (now2 : datetime)
    (H F1 F2 : list ProductSnapshot) :
  fetch1 base_url (clock w) = Ok F1 →
  fetch2 base_url now2 = Ok F2 →
  (load_history out_json w).1 = Ok H →
  out_json ∉ write_denied w →
  out_csv ∉ write_denied w →
  out_csv ≠ out_json →
  valid_datetime (clock w) = true →
  Forall (λ p, valid_snapshot p = true) F1 →
  let w1 := tick now2 (run_pipeline fetch1 base_url out_csv out_json w).2 in
  (run_pipeline fetch2 base_url out_csv out_json w1).1 =
    Ok (dedupe_snapshots (H ++ F1 ++ F2)) ∧
  files (run_pipeline fetch2 base_url out_csv out_json w1).2 !! out_json =
    Some (json_document (dedupe_snapshots (H ++ F1 ++ F2))).
Proof.
  intros Hf1 Hf2 Hload Hjson Hcsv Hne Hnow HF1 w1.
  destruct (load_history_after_run _ _ _ _ now2 _ _ Hf1 Hload Hjson Hcsv Hne Hnow HF1)
    as (Hload1 & Hdenied & Hclock).
  fold w1 in Hload1, Hdenied, Hclock.
  rewrite <- Hclock in Hf2. rewrite <- Hdenied in Hjson, Hcsv.
  destruct (run_pipeline_success _ _ _ _ _ _ _ Hf2 Hload1 Hjson Hcsv)
    as (Hres & Hfiles & _).
  rewrite dedupe_snapshots_app_l, <- app_assoc in Hres, Hfiles.
  split; [done|].
  by rewrite Hfiles, lookup_insert_ne, lookup_insert_eq.
Qed.

(** X6: a second run whose fetch brings only keys that are already there
    (the same rows again, or the same products and timestamps at other
    prices) returns what the first run returned and stores the same JSON. *)
Theorem run_pipeline_again_known_keys
    (base_url out_csv out_json : string) (w : world) (now2 : datetime)
    (H F1 F2 : list ProductSnapshot) :
  fetch1 base_url (clock w) = Ok F1 →
  fetch2 base_url now2 = Ok F2 →
  (load_history out_json w).1 = Ok H →
  out_json ∉ write_denied w →
  out_csv ∉ write_denied w →
  out_csv ≠ out_json →
  valid_datetime (clock w) = true →
  Forall (λ p, valid_snapshot p = true) F1 →
  (∀ x, x ∈ F2 → dedup_key x ∈ dedup_key <$> (H ++ F1)) →
  let r1 := run_pipeline fetch1 base_url out_csv out_json w in
  let r2 := run_pipeline fetch2 base_url out_csv out_json (tick now2 r1.2) in
  r2.1 = r1.1 ∧ files r2.2 !! out_json = files r1.2 !! out_json.
Proof.
  intros Hf1 Hf2 Hload Hjson Hcsv Hne Hnow HF1 Hknown r1 r2.
  destruct (load_history_after_run _ _ _ _ now2 _ _ Hf1 Hload Hjson Hcsv Hne Hnow HF1)
    as (Hload1 & Hdenied & Hclock).
  destruct (run_pipeline_success _ _ _ _ _ _ _ Hf1 Hload Hjson Hcsv)
    as (Hres1 & Hfiles1 & _).
  fold r1 in Hload1, Hdenied, Hclock, Hres1, Hfiles1.
  rewrite <- Hclock in Hf2. rewrite <- Hdenied in Hjson, Hcsv.
  destruct (run_pipeline_success _ _ _ _ _ _ _ Hf2 Hload1 Hjson Hcsv)
    as (Hres2 & Hfiles2 & _).
  fold r2 in Hres2, Hfiles2.
  assert (Hsame : dedupe_snapshots (dedupe_snapshots (H ++ F1) ++ F2)
                  = dedupe_snapshots (H ++ F1)).
  { rewrite dedupe_snapshots_app_l. by apply dedupe_snapshots_app_known. }
  rewrite Hsame in Hres2, Hfiles2.
  split; [congruence|].
  rewrite Hfiles1, Hfiles2.
  by rewrite !(lookup_insert_ne _ out_csv out_json), !lookup_insert_eq.
Qed.

End TwoRuns.

(** ** The growth of the history *)

(** What a run returns has no repeated key. *)
Lemma run_pipeline_result_NoDup source_fetch base_url out_csv out_json w merged :
  (run_pipeline source_fetch base_url out_csv out_json w).1 = Ok merged →
  NoDup (dedup_key <$> merged).
Proof.
  rewrite run_pipeline_unfold. cbv zeta.
  destruct (source_fetch base_url (clock w)) as [new_rows|e]; [|done].
  destruct (load_history out_json w).1 as [existing_rows|e]; [|done].
  repeat case_decide; try done. intros [= <-]. apply dedupe_snapshots_NoDup.
Qed.

Section MergeGrowth.

Variables earlier_fetch source_fetch : string → datetime → result (list ProductSnapshot).

(** C3: let [H] be an existing history, the [n] rows an earlier run
    returned and the store now holds, and [F] a fresh fetch of [m] rows at
    timestamps that do not occur in [H]. The run returns [H] followed by
    the first occurrence of each (product_key, scraped_at) pair of [F]:
    exactly [n + m] rows unless a pair is repeated within [F]. *)
Theorem run_pipeline_merge_growth
    (earlier_url earlier_csv earlier_json : string) (w0 : world)
    (base_url out_csv out_json : string) (w : world) (H F : list ProductSnapshot) :
  (run_pipeline earlier_fetch earlier_url earlier_csv earlier_json w0).1 = Ok H →
  (load_history out_json w).1 = Ok H →
  source_fetch base_url (clock w) = Ok F →
  out_json ∉ write_denied w →
  out_csv ∉ write_denied w →
  (∀ h f, h ∈ H → f ∈ F → scraped_at h ≠ scraped_at f) →
  let r := run_pipeline source_fetch base_url out_csv out_json w in
  r.1 = Ok (H ++ first_occurrences [] F) ∧
  (NoDup (dedup_key <$> F) →
   r.1 = Ok (H ++ F) ∧ length (H ++ F) = (length H + length F)%nat).
Proof.
  intros Hearlier Hload Hfetch Hjson Hcsv Hdisj r. subst r.
  apply run_pipeline_result_NoDup in Hearlier.
  by apply run_pipeline_merge_disjoint.
Qed.

End MergeGrowth.

(** ** More on the HTTP client *)

Section GetHtmlMore.

Import Http.

Variable client_get : client → string → http_error + response.

(** X7: a body is returned only for a response whose status is 200 to 299,
    and it is the text of that response; a redirect left unfollowed or an
    informational status never yields one. *)
Theorem get_html_body_iff (url : string) (timeout_s : Qc) (body : string) :
  get_html client_get url timeout_s = inr body ↔
  ∃ r, client_get (mk_client request_headers timeout_s true) url = inr r ∧
       200 ≤ status_code r ∧ status_code r ≤ 299 ∧ text r = body.
Proof.
  unfold get_html, raise_for_status, is_success.
  destruct (client_get _ url) as [e|r].
  - split; [done|]. by intros (r & [=] & _).
  - destruct (N.leb_spec 200 (status_code r)), (N.leb_spec (status_code r) 299);
      cbn [andb]; split.
    + intros [= <-]. by exists r.
    + by intros (? & [= <-] & _ & _ & <-).
    + done.
    + intros (? & [= <-] & _ & ? & _). lia.
    + done.
    + intros (? & [= <-] & ? & _). lia.
    + done.
    + intros (? & [= <-] & ? & _). lia.
Qed.

(** X8: every error of [get_html] is the transport's own error, or an
    [HTTPStatusError] that carries the response it rejected, whose status is
    below 200 or above 299. *)
Theorem get_html_error_iff (url : string) (timeout_s : Qc) (e : http_error) :
  get_html client_get url timeout_s = inl e ↔
  client_get (mk_client request_headers timeout_s true) url = inl e ∨
  ∃ r, client_get (mk_client request_headers timeout_s true) url = inr r ∧
       e = HTTPStatusError r ∧ (status_code r < 200 ∨ 299 < status_code r).
Proof.
  unfold get_html, raise_for_status, is_success.
  destruct (client_get _ url) as [e'|r].
  - split; [intros [= ->]; by left|]. by intros [[= ->]|(r & [=] & _)].
  - destruct (N.leb_spec 200 (status_code r)), (N.leb_spec (status_code r) 299);
      cbn [andb]; split.
    + done.
    + intros [[=]|(? & [= <-] & _ & [?|?])]; lia.
    + intros [= <-]. right. exists r. split_and!; [done..|]. by right.
    + by intros [[=]|(? & [= <-] & -> & _)].
    + intros [= <-]. right. exists r. split_and!; [done..|]. by left.
    + by intros [[=]|(? & [= <-] & -> & _)].
    + intros [= <-]. right. exists r. split_and!; [done..|]. by left.
    + by intros [[=]|(? & [= <-] & -> & _)].
Qed.

End GetHtmlMore.

(** ** The command line *)

Lemma length_pad_digits w n : length (pad_digits w n) = w.
Proof. revert n. induction w as [|w IH]; intros n; simpl; [done|]. by rewrite IH. Qed.

(** The [+00:00] form is read back as the same time. *)
Lemma fromisoformat_aware_isoformat t :
  valid_datetime t = true → fromisoformat (Cli.aware_isoformat t) = Some t.
Proof.
  intros Hv. unfold fromisoformat, Cli.aware_isoformat.
  rewrite list_ascii_of_string_of_list_ascii.
  destruct t as [y mo d h mi s us].
  pose proof Hv as Hv'. unfold valid_datetime in Hv'. simpl in Hv'.
  repeat (apply andb_prop in Hv' as [Hv' ?]).
  repeat match goal with
         | H : (_ <=? _) = true |- _ => apply N.leb_le in H
         | H : (_ <? _) = true |- _ => apply N.ltb_lt in H
         end.
  assert (Hdm : days_in_month y mo ≤ 31).
  { unfold days_in_month. repeat case_match; lia. }
  unfold fromisoformat_chars, Cli.aware_isoformat_chars;
    cbn [year month day hour minute second microsecond].
  read_field 4%nat. read_sep. read_field 2%nat. read_sep. read_field 2%nat. read_sep.
  read_field 2%nat. read_sep. read_field 2%nat. read_sep. read_field 2%nat.
  destruct (N.eqb_spec us 0) as [->|Hus].
  - cbn [app list_ascii_of_string read_fraction].
    change (Ascii.eqb "+" ".") with false.
    cbn [mbind option_bind].
    match goal with
    | |- context [utc_suffix ?l] => change (utc_suffix l) with true
    end.
    by rewrite Hv.
  - rewrite <- app_comm_cons.
    unfold read_fraction. rewrite Ascii.eqb_refl.
    read_field 6%nat.
    change (utc_suffix (list_ascii_of_string "+00:00")) with true.
    by rewrite Hv.
Qed.

Lemma length_string_of_list_ascii l :
  String.length (string_of_list_ascii l) = length l.
Proof. induction l as [|c l IH]; simpl; [done|]. by rewrite IH. Qed.

Lemma length_aware_isoformat t :
  String.length (Cli.aware_isoformat t) = if microsecond t =? 0 then 25%nat else 32%nat.
Proof.
  unfold Cli.aware_isoformat, Cli.aware_isoformat_chars.
  rewrite length_string_of_list_ascii.
  destruct (microsecond t =? 0);
    repeat (rewrite ?length_app, ?length_cons, ?length_pad_digits); done.
Qed.

Section CliFacts.

Import Cli.

Variable source_fetch : string → datetime → result (list ProductSnapshot).
Variable parse_args : list string → list output * outcome (gmap string string).

(** X9: the health check prints one line, the fixed text followed by the
    clock's time with the [+00:00] offset in 25 or 32 characters; it changes
    nothing else, and the time it prints reads back as the clock's time. *)
Theorem cmd_healthcheck_prints_clock (c : console) :
  valid_datetime (clock (env c)) = true →
  ∃ stamp,
    cmd_healthcheck c =
      (Done (), mk_console (env c) (argv c)
                  (stdout c ++ [OutLine ("[ok] scraper CLI is working | utc=" +:+ stamp)])) ∧
    fromisoformat stamp = Some (clock (env c)) ∧
    String.length stamp = if microsecond (clock (env c)) =? 0 then 25%nat else 32%nat.
Proof.
  intros Hv. exists (aware_isoformat (clock (env c))). split_and!.
  - done.
  - by apply fromisoformat_aware_isoformat.
  - apply length_aware_isoformat.
Qed.

(** X10: [scrape] prints one JSON array with one object per fetched row, in
    fetch order and with repeated keys left in; the store files are not
    touched, and the array decodes back to the fetched rows. *)
Theorem cmd_scrape_prints_fetched_rows (base_url : string) (c : console)
    (rows : list ProductSnapshot) :
  source_fetch base_url (clock (env c)) = Ok rows →
  ∃ items,
    (cmd_scrape source_fetch base_url c).1 = Done () ∧
    stdout (cmd_scrape source_fetch base_url c).2 = stdout c ++ [OutJson (JArr items)] ∧
    length items = length rows ∧
    parse_records (JsonText (JArr items)) = Some (model_dump <$> rows) ∧
    (∀ now, Forall (λ p, valid_snapshot p = true) rows →
            map_result (_dict_to_snapshot now) (model_dump <$> rows) = Ok rows) ∧
    files (env (cmd_scrape source_fetch base_url c).2) = files (env c).
Proof.
  intros Hfetch. exists (JObj <$> (model_dump <$> rows)).
  unfold cmd_scrape, call, fetch, print, mbind, cli_bind. cbn [env]. rewrite Hfetch.
  cbn [fst snd stdout env files log].
  split_and!; try done.
  - by rewrite !length_fmap.
  - rewrite <- list_fmap_compose. apply (parse_records_json_document rows).
  - intros now. apply map_result_model_dump.
Qed.

(** X11: when the fetch fails [scrape] passes the error on and prints nothing;
    the store files are not touched. *)
Theorem cmd_scrape_fetch_failure (base_url : string) (c : console) (e : exn) :
  source_fetch base_url (clock (env c)) = Raise e →
  (cmd_scrape source_fetch base_url c).1 = Failed (Uncaught e) ∧
  stdout (cmd_scrape source_fetch base_url c).2 = stdout c ∧
  files (env (cmd_scrape source_fetch base_url c).2) = files (env c).
Proof.
  intros Hfetch.
  unfold cmd_scrape, call, fetch, print, mbind, cli_bind. cbn [env]. by rewrite Hfetch.
Qed.

(** X12: on a store without a file, and a fetch without a repeated key, the
    JSON file the pipeline writes holds the array [scrape] prints. *)
Theorem cmd_scrape_matches_first_run (base_url out_csv out_json : string)
    (c : console) (rows : list ProductSnapshot) :
  source_fetch base_url (clock (env c)) = Ok rows →
  files (env c) !! out_json = None →
  out_json ∉ write_denied (env c) →
  out_csv ∉ write_denied (env c) →
  out_csv ≠ out_json →
  NoDup (dedup_key <$> rows) →
  ∃ doc,
    stdout (cmd_scrape source_fetch base_url c).2 = stdout c ++ [OutJson doc] ∧
    files (run_pipeline source_fetch base_url out_csv out_json (env c)).2 !! out_json
      = Some (JsonText doc).
Proof.
  intros Hfetch Hnone Hjson Hcsv Hne Hnd.
  exists (JArr (JObj <$> (model_dump <$> rows))). split.
  - unfold cmd_scrape, call, fetch, print, mbind, cli_bind. cbn [env]. by rewrite Hfetch.
  - assert (Hload : (load_history out_json (env c)).1 = Ok []).
    { rewrite load_history_unfold. cbn [fst]. by rewrite Hnone. }
    destruct (run_pipeline_success _ _ _ _ _ _ _ Hfetch Hload Hjson Hcsv)
      as (_ & -> & _).
    rewrite lookup_insert_ne, lookup_insert_eq by done.
    rewrite app_nil_l, (dedupe_snapshots_id _ Hnd).
    unfold json_document. by rewrite <- list_fmap_compose.
Qed.

Lemma getattr_console args name c :
  (getattr args name c).2 = c.
Proof. unfold getattr. by destruct (args !! name). Qed.

Lemma cmd_scrape_env base_url c :
  files (env (cmd_scrape source_fetch base_url c).2) = files (env c) ∧
  trace (env (cmd_scrape source_fetch base_url c).2) = trace (env c) ++ [EvFetch base_url] ∧
  match (cmd_scrape source_fetch base_url c).1 with
  | Done _ => ∃ o, stdout (cmd_scrape source_fetch base_url c).2 = stdout c ++ [o]
  | Failed _ => stdout (cmd_scrape source_fetch base_url c).2 = stdout c
  end.
Proof.
  unfold cmd_scrape, call, fetch, print, mbind, cli_bind. cbn [env].
  destruct (source_fetch base_url (clock (env c))) as [rows|e]; cbn; eauto.
Qed.

(** Every way [main] can go. *)
Lemma main_unfold c :
  main source_fetch parse_args c =
  let c' := mk_console (env c) (argv c) (stdout c ++ (parse_args (argv c)).1) in
  match (parse_args (argv c)).2 with
  | Failed e => (Failed e, c')
  | Done args =>
      match args !! "command"%string with
      | None => (Failed (AttributeError "command"), c')
      | Some command =>
          if String.eqb command "healthcheck" then cmd_healthcheck c'
          else if String.eqb command "scrape" then
            match args !! "base_url"%string with
            | None => (Failed (AttributeError "base_url"), c')
            | Some base_url => cmd_scrape source_fetch base_url c'
            end
          else (Failed (SystemExit (ExitMessage "Unknown command")), c')
      end
  end.
Proof.
  unfold main, parser_parse_args, mbind, cli_bind, getattr.
  destruct (parse_args (argv c)) as [printed [args|e]]; [|done]. cbn [fst snd].
  destruct (args !! "command"%string) as [command|]; [|done].
  cbn [mret cli_ret].
  destruct (String.eqb command "healthcheck"); [done|].
  destruct (String.eqb command "scrape"); [|done].
  by destruct (args !! "base_url"%string).
Qed.

(** X13: no command of the program reads or writes the store: whatever the
    arguments parse to, the files are as before, and the only call made to
    a collaborator is at most one fetch. *)
Theorem main_never_touches_store (c : console) :
  files (env (main source_fetch parse_args c).2) = files (env c) ∧
  (trace (env (main source_fetch parse_args c).2) = trace (env c) ∨
   ∃ base_url, trace (env (main source_fetch parse_args c).2)
               = trace (env c) ++ [EvFetch base_url]).
Proof.
  rewrite main_unfold. cbv zeta.
  destruct (parse_args (argv c)).2 as [args|e]; [|by split; [|left]].
  destruct (args !! "command"%string) as [command|]; [|by split; [|left]].
  destruct (String.eqb command "healthcheck"); [by split; [|left]|].
  destruct (String.eqb command "scrape"); [|by split; [|left]].
  destruct (args !! "base_url"%string) as [base_url|]; [|by split; [|left]].
  match goal with
  | |- context [cmd_scrape source_fetch base_url ?c'] =>
      destruct (cmd_scrape_env base_url c') as (Hfiles & Htrace & _)
  end.
  cbn [env] in Hfiles, Htrace.
  split; [done|]. right. by exists base_url.
Qed.

(** X14: with a parser that hands back only the two registered commands,
    [main] has three ways to end: the parser's own exit, with what the
    parser printed and nothing more; success, with exactly one item printed
    after that; or the error of a failed fetch, with nothing more printed.
    The [Unknown command] exit and a missing attribute are never reached. *)
Theorem main_outcomes (c : console) :
  registered_commands_only parse_args →
  let printed := (parse_args (argv c)).1 in
  let r := main source_fetch parse_args c in
  (∃ e, (parse_args (argv c)).2 = Failed e ∧ r.1 = Failed e ∧
        stdout r.2 = stdout c ++ printed) ∨
  (r.1 = Done () ∧ ∃ o, stdout r.2 = (stdout c ++ printed) ++ [o]) ∨
  (∃ base_url e, source_fetch base_url (clock (env c)) = Raise e ∧
                 r.1 = Failed (Uncaught e) ∧ stdout r.2 = stdout c ++ printed).
Proof.
  intros Hparser printed r. subst printed r. rewrite main_unfold. cbv zeta.
  specialize (Hparser (argv c)).
  destruct (parse_args (argv c)) as [printed [args|e]]; cbn [fst snd];
    [|left; by exists e].
  right.
  destruct (Hparser printed args eq_refl) as [->|[-> [base_url ->]]].
  - left. change (String.eqb "healthcheck" "healthcheck") with true. cbv iota.
    split; [done|]. by eexists.
  - change (String.eqb "scrape" "healthcheck") with false.
    change (String.eqb "scrape" "scrape") with true. cbv iota.
    unfold cmd_scrape, call, fetch, print, mbind, cli_bind. cbn [env].
    destruct (source_fetch base_url (clock (env c))) as [rows|e] eqn:Hfetch.
    + left. split; [done|]. by eexists.
    + right. by exists base_url, e.
Qed.

End CliFacts.

(** ** The further properties on the sample data *)

Import MoreSamples.

Lemma run_pipeline_merge_growth_witness :
  let w := tick t2 (run_pipeline catalog_t1 catalog_url "prices.csv" "history.json"
                      fresh_world).2 in
  let r := run_pipeline catalog_t2 catalog_url "prices.csv" "history.json" w in
  r.1 = Ok ([iphone_t1] ++ first_occurrences [] [iphone_t2]) ∧
  (NoDup (dedup_key <$> [iphone_t2]) →
   r.1 = Ok ([iphone_t1] ++ [iphone_t2]) ∧
   length ([iphone_t1] ++ [iphone_t2]) = (length [iphone_t1] + length [iphone_t2])%nat).
Proof.
  apply (run_pipeline_merge_growth catalog_t1 catalog_t2
           catalog_url "prices.csv" "history.json" fresh_world
           catalog_url "prices.csv" "history.json").
  - vm_compute. reflexivity.
  - vm_compute. reflexivity.
  - reflexivity.
  - apply not_elem_of_empty.
  - apply not_elem_of_empty.
  - intros h f ->%list_elem_of_singleton ->%list_elem_of_singleton. discriminate.
Defined.

Lemma run_pipeline_json_failure_stops_before_csv_witness :
  let r := run_pipeline catalog_t2 catalog_url "prices.csv" "history.json" json_locked_world in
  r.1 = Raise (IOError "history.json") ∧
  files r.2 = files json_locked_world ∧
  trace r.2 =
    trace json_locked_world ++
    [EvFetch catalog_url; EvReadJson "history.json";
     EvWriteJson "history.json" (dedupe_snapshots ([iphone_t1] ++ [iphone_t2]))].
Proof.
  apply (run_pipeline_json_failure_stops_before_csv catalog_t2 catalog_url "prices.csv"
           "history.json" json_locked_world [iphone_t2] [iphone_t1]).
  - reflexivity.
  - vm_compute. reflexivity.
  - vm_compute. reflexivity.
Defined.

Lemma run_pipeline_result_keys_witness :
  NoDup (dedup_key <$> [iphone_t1; iphone_t2]) ∧
  (∀ k, k ∈ dedup_key <$> [iphone_t1; iphone_t2] ↔
        k ∈ dedup_key <$> [iphone_t1] ∨ k ∈ dedup_key <$> [iphone_t1_repriced; iphone_t2]) ∧
  [iphone_t1; iphone_t2] `sublist_of` [iphone_t1] ++ [iphone_t1_repriced; iphone_t2].
Proof.
  apply (run_pipeline_result_keys catalog_t1_repriced catalog_url "prices.csv"
           "history.json" stocked_world).
  - reflexivity.
  - vm_compute. reflexivity.
  - vm_compute. reflexivity.
Defined.

Lemma run_pipeline_keeps_history_witness :
  let r := run_pipeline catalog_t1_repriced catalog_url "prices.csv" "history.json"
             stocked_world in
  r.1 = Ok ([iphone_t1] ++
            dedupe_snapshots
              (filter (λ r, dedup_key r ∉ dedup_key <$> [iphone_t1])
                      [iphone_t1_repriced; iphone_t2])) ∧
  ([iphone_t1_repriced; iphone_t2] = [] → r.1 = Ok [iphone_t1]).
Proof.
  apply (run_pipeline_keeps_history catalog_t1_repriced catalog_url "prices.csv"
           "history.json" stocked_world).
  - reflexivity.
  - vm_compute. reflexivity.
  - apply not_elem_of_empty.
  - apply not_elem_of_empty.
  - apply NoDup_singleton.
Defined.

(** The repriced row is the one that goes. *)
Example run_keeps_stored_price :
  (run_pipeline catalog_t1_repriced catalog_url "prices.csv" "history.json"
     stocked_world).1 = Ok [iphone_t1; iphone_t2].
Proof. vm_compute. reflexivity. Qed.

Lemma run_pipeline_same_path_destroys_store_witness :
  let merged := dedupe_snapshots ([iphone_t1] ++ [iphone_t2]) in
  let w' := (run_pipeline catalog_t2 catalog_url "history.json" "history.json"
               stocked_world).2 in
  (run_pipeline catalog_t2 catalog_url "history.json" "history.json" stocked_world).1
    = Ok merged ∧
  files w' !! "history.json"%string = Some (csv_document merged) ∧
  (∀ out_csv,
     (run_pipeline catalog_t2 catalog_url out_csv "history.json" (tick t3 w')).1
       = Raise (CorruptStateError "history.json") ∨
     ∃ e, catalog_t2 catalog_url t3 = Raise e ∧
          (run_pipeline catalog_t2 catalog_url out_csv "history.json" (tick t3 w')).1
            = Raise e).
Proof.
  apply (run_pipeline_same_path_destroys_store catalog_t2 catalog_url "history.json"
           stocked_world t3 [iphone_t2] [iphone_t1]).
  - reflexivity.
  - vm_compute. reflexivity.
  - apply not_elem_of_empty.
Defined.

Lemma run_pipeline_twice_witness :
  let w1 := tick t3 (run_pipeline catalog_t2 catalog_url "prices.csv" "history.json"
                       stocked_world).2 in
  (run_pipeline catalog_t3 catalog_url "prices.csv" "history.json" w1).1 =
    Ok (dedupe_snapshots ([iphone_t1] ++ [iphone_t2] ++ [iphone_t3])) ∧
  files (run_pipeline catalog_t3 catalog_url "prices.csv" "history.json" w1).2
    !! "history.json"%string =
    Some (json_document (dedupe_snapshots ([iphone_t1] ++ [iphone_t2] ++ [iphone_t3]))).
Proof.
  apply (run_pipeline_twice catalog_t2 catalog_t3 catalog_url "prices.csv" "history.json"
           stocked_world t3 [iphone_t1] [iphone_t2] [iphone_t3]).
  - reflexivity.
  - reflexivity.
  - vm_compute. reflexivity.
  - apply not_elem_of_empty.
  - apply not_elem_of_empty.
  - discriminate.
  - vm_compute. reflexivity.
  - repeat constructor.
Defined.

Lemma run_pipeline_again_known_keys_witness :
  let r1 := run_pipeline catalog_t2 catalog_url "prices.csv" "history.json" stocked_world in
  let r2 := run_pipeline catalog_t1_repriced catalog_url "prices.csv" "history.json"
              (tick t3 r1.2) in
  r2.1 = r1.1 ∧
  files r2.2 !! "history.json"%string = files r1.2 !! "history.json"%string.
Proof.
  apply (run_pipeline_again_known_keys catalog_t2 catalog_t1_repriced catalog_url
           "prices.csv" "history.json" stocked_world t3
           [iphone_t1] [iphone_t2] [iphone_t1_repriced; iphone_t2]).
  - reflexivity.
  - reflexivity.
  - vm_compute. reflexivity.
  - apply not_elem_of_empty.
  - apply not_elem_of_empty.
  - discriminate.
  - vm_compute. reflexivity.
  - repeat constructor.
  - intros x Hx.
    apply elem_of_cons in Hx as [-> | ->%list_elem_of_singleton].
    + apply (list_elem_of_here (dedup_key iphone_t1)).
    + apply list_elem_of_further, (list_elem_of_here (dedup_key iphone_t2)).
Defined.

Lemma cmd_healthcheck_prints_clock_witness :
  ∃ stamp,
    Cli.cmd_healthcheck (fresh_console ["healthcheck"%string]) =
      (Cli.Done (),
       Cli.mk_console fresh_world ["healthcheck"%string]
         ([] ++ [Cli.OutLine ("[ok] scraper CLI is working | utc=" +:+ stamp)])) ∧
    fromisoformat stamp = Some t2 ∧
    String.length stamp = if microsecond t2 =? 0 then 25%nat else 32%nat.
Proof.
  apply (cmd_healthcheck_prints_clock (fresh_console ["healthcheck"%string])).
  vm_compute. reflexivity.
Defined.

(** The line as it is printed. *)
Example healthcheck_line :
  Cli.stdout (Cli.cmd_healthcheck (fresh_console ["healthcheck"%string])).2 =
  [Cli.OutLine "[ok] scraper CLI is working | utc=2024-01-02T10:30:05.000123+00:00"].
Proof. vm_compute. reflexivity. Qed.

Lemma cmd_scrape_prints_fetched_rows_witness :
  let c := stocked_console ["scrape"%string] in
  ∃ items,
    (Cli.cmd_scrape catalog_t1_repriced catalog_url c).1 = Cli.Done () ∧
    Cli.stdout (Cli.cmd_scrape catalog_t1_repriced catalog_url c).2
      = Cli.stdout c ++ [Cli.OutJson (JArr items)] ∧
    length items = length [iphone_t1_repriced; iphone_t2] ∧
    parse_records (JsonText (JArr items))
      = Some (model_dump <$> [iphone_t1_repriced; iphone_t2]) ∧
    (∀ now, Forall (λ p, valid_snapshot p = true) [iphone_t1_repriced; iphone_t2] →
            map_result (_dict_to_snapshot now) (model_dump <$> [iphone_t1_repriced; iphone_t2])
              = Ok [iphone_t1_repriced; iphone_t2]) ∧
    files (Cli.env (Cli.cmd_scrape catalog_t1_repriced catalog_url c).2) = files (Cli.env c).
Proof.
  apply (cmd_scrape_prints_fetched_rows catalog_t1_repriced catalog_url
           (stocked_console ["scrape"%string])).
  reflexivity.
Defined.

Lemma cmd_scrape_fetch_failure_witness :
  let c := stocked_console ["scrape"%string] in
  (Cli.cmd_scrape catalog_down catalog_url c).1
    = Cli.Failed (Cli.Uncaught (FetchError catalog_url)) ∧
  Cli.stdout (Cli.cmd_scrape catalog_down catalog_url c).2 = Cli.stdout c ∧
  files (Cli.env (Cli.cmd_scrape catalog_down catalog_url c).2) = files (Cli.env c).
Proof.
  apply (cmd_scrape_fetch_failure catalog_down catalog_url
           (stocked_console ["scrape"%string])).
  reflexivity.
Defined.

Lemma cmd_scrape_matches_first_run_witness :
  let c := fresh_console ["scrape"%string] in
  ∃ doc,
    Cli.stdout (Cli.cmd_scrape catalog_t2 catalog_url c).2 = Cli.stdout c ++ [Cli.OutJson doc] ∧
    files (run_pipeline catalog_t2 catalog_url "prices.csv" "history.json" (Cli.env c)).2
      !! "history.json"%string = Some (JsonText doc).
Proof.
  apply (cmd_scrape_matches_first_run catalog_t2 catalog_url "prices.csv" "history.json"
           (fresh_console ["scrape"%string]) [iphone_t2]).
  - reflexivity.
  - reflexivity.
  - apply not_elem_of_empty.
  - apply not_elem_of_empty.
  - discriminate.
  - apply NoDup_singleton.
Defined.

Lemma parse_two_commands_registered : Cli.registered_commands_only parse_two_commands.
Proof.
  intros args printed ns. unfold parse_two_commands.
  repeat case_bool_decide; intros [= <- <-]; [by left|].
  right. split; [reflexivity|]. by eexists.
Defined.

Lemma main_outcomes_witness :
  let c := fresh_console ["--help"%string] in
  let printed := (parse_two_commands (Cli.argv c)).1 in
  let r := Cli.main catalog_t2 parse_two_commands c in
  (∃ e, (parse_two_commands (Cli.argv c)).2 = Cli.Failed e ∧ r.1 = Cli.Failed e ∧
        Cli.stdout r.2 = Cli.stdout c ++ printed) ∨
  (r.1 = Cli.Done () ∧ ∃ o, Cli.stdout r.2 = (Cli.stdout c ++ printed) ++ [o]) ∨
  (∃ base_url e, catalog_t2 base_url (clock (Cli.env c)) = Raise e ∧
                 r.1 = Cli.Failed (Cli.Uncaught e) ∧
                 Cli.stdout r.2 = Cli.stdout c ++ printed).
Proof.
  apply (main_outcomes catalog_t2 parse_two_commands (fresh_console ["--help"%string])).
  exact parse_two_commands_registered.
Defined.

(** The three ways on the sample parser: help is printed and the program
    exits with 0; [scrape] prints one array; a catalog that is down ends
    the program with its error. *)
Example main_help :
  Cli.main catalog_t2 parse_two_commands (fresh_console ["--help"%string]) =
  (Cli.Failed (Cli.SystemExit (Cli.ExitCode 0)),
   Cli.mk_console fresh_world ["--help"%string]
     [Cli.OutLine "usage: scraper [-h] {healthcheck,scrape} ..."]).
Proof. reflexivity. Qed.

Example main_scrape_down :
  (Cli.main catalog_down parse_two_commands (fresh_console ["scrape"%string])).1
    = Cli.Failed (Cli.Uncaught (FetchError catalog_url)).
Proof. vm_compute. reflexivity. Qed.
